(** * Account-metrics ingestion: normalisation, record building, deltas, yearly totals

    A shallow embedding of the TypeScript sources

    - [lib/excelReader]            (module [ExcelReader])
    - [app/api/data/route.ts]      (module [DataRoute])
    - the yearly statistics route  (module [YearlyStats])
    - the monthly board            (module [Page])
    - [app/thressvs/page.tsx]      (module [ThreeVsPage])

    JavaScript values are embedded as they are at run time: numbers are
    IEEE-754 binary64 values ([spec_float] at precision 53 and maximal
    exponent 1024), strings are sequences of UTF-16 code units, objects used
    as dictionaries are finite maps keyed by strings. *)

From Stdlib Require Import ZArith NArith List Bool Lia String Ascii.
From Stdlib Require Import Floats.SpecFloat.
From stdpp Require Import gmap list sorting.

Local Open Scope Z_scope.

(** ** JavaScript primitives used by the sources *)

Module JS.

(** A string is the list of its UTF-16 code units. *)
Abbreviation jsstring := (list N).

(** [js "..."] reads a literal of this file (UTF-8 bytes) as code units. *)
Definition code_units (cp : N) : list N :=
  if (cp <? 65536)%N then [cp]
  else [(55296 + (cp - 65536) / 1024)%N; (56320 + (cp - 65536) mod 1024)%N].

Fixpoint utf8 (s : string) (acc : N) (pending : nat) : list N :=
  match s with
  | EmptyString => []
  | String a r =>
      let b := N_of_ascii a in
      match pending with
      | O =>
          if (b <? 128)%N then b :: utf8 r 0%N O
          else if (b <? 224)%N then utf8 r (b - 192)%N 1%nat
          else if (b <? 240)%N then utf8 r (b - 224)%N 2%nat
          else utf8 r (b - 240)%N 3%nat
      | S O => code_units (acc * 64 + (b - 128))%N ++ utf8 r 0%N O
      | S k => utf8 r (acc * 64 + (b - 128))%N k
      end
  end.

Definition js (s : string) : jsstring := utf8 s 0%N O.
Arguments js s : simpl never.

(** One code unit, from an ASCII character. *)
Definition ch (a : ascii) : N := N_of_ascii a.

(** *** Numbers *)

Abbreviation number := spec_float.

Definition prec : Z := 53.
Definition emax : Z := 1024.

Definition NaN : number := S754_nan.
Definition zero : number := S754_zero false.
Definition Infinity : number := S754_infinity false.

(** The Number value of an integer literal. *)
Definition of_Z (z : Z) : number := binary_normalize prec emax z 0 false.

Definition isNaN (x : number) : bool :=
  match x with S754_nan => true | _ => false end.

Definition isFinite (x : number) : bool :=
  match x with S754_zero _ | S754_finite _ _ _ => true | _ => false end.

Definition mul (x y : number) : number := SFmul prec emax x y.
Definition add (x y : number) : number := SFadd prec emax x y.
Definition sub (x y : number) : number := SFsub prec emax x y.
Definition div (x y : number) : number := SFdiv prec emax x y.

(** [x >= y]: false when either side is NaN. *)
Definition greater_equal (x y : number) : bool := SFleb y x.

(** The Number value of the decimal [m * 10^e] with sign [neg]: the
    quotient of two integers, rounded once to nearest-even. *)
Definition of_decimal (neg : bool) (m : Z) (e : Z) : number :=
  match m with
  | Zpos p =>
      let num := match e with Zpos _ => Zpos p * 10 ^ e | _ => Zpos p end in
      let den := match e with Zneg _ => 10 ^ (- e) | _ => 1 end in
      let '(mz, ez, lz) := SFdiv_core_binary prec emax num 0 den 0 in
      binary_round_aux prec emax neg mz ez lz
  | _ => S754_zero neg
  end.

(** *** Strings *)

(** WhiteSpace and LineTerminator code units, as [String.prototype.trim]
    and [parseFloat] strip them: U+0009 to U+000D, U+0020, U+00A0, U+1680,
    U+2000 to U+200A, U+2028, U+2029, U+202F, U+205F, U+3000, U+FEFF. *)
Definition is_whitespace (c : N) : bool :=
  ((9 <=? c) && (c <=? 13) || (c =? 32) || (c =? 160) || (c =? 5760)
   || (8192 <=? c) && (c <=? 8202) || (c =? 8232) || (c =? 8233)
   || (c =? 8239) || (c =? 8287) || (c =? 12288) || (c =? 65279))%N.

Fixpoint trimStart (s : jsstring) : jsstring :=
  match s with
  | c :: r => if is_whitespace c then trimStart r else s
  | [] => []
  end.

Definition trimEnd (s : jsstring) : jsstring := rev (trimStart (rev s)).

Definition trim (s : jsstring) : jsstring := trimEnd (trimStart s).

(** [s.includes(c)] for a one-character pattern. *)
Definition includes (s : jsstring) (c : N) : bool := existsb (N.eqb c) s.

(** [s.replace(c, '')] for a one-character string pattern: only the first
    occurrence is removed. *)
Fixpoint remove_first (c : N) (s : jsstring) : jsstring :=
  match s with
  | d :: r => if (d =? c)%N then r else d :: remove_first c r
  | [] => []
  end.

(** [s.replace(/[...]/g, '')]: every code unit of the class is removed. *)
Definition remove_all (cls : N -> bool) (s : jsstring) : jsstring :=
  List.filter (fun d => negb (cls d)) s.

(** [s.toLowerCase()] on the Basic Latin block: U+0041 to U+005A move up
    by 32.  The sources only ask whether the lowered text includes ['w'],
    and U+0057 is the one code point other than U+0077 whose lower-case
    mapping is U+0077; code units outside the block are kept as they
    are. *)
Definition toLowerCase (s : jsstring) : jsstring :=
  map (fun c => if ((65 <=? c) && (c <=? 90))%N then (c + 32)%N else c) s.

Fixpoint starts_with (p s : jsstring) : option jsstring :=
  match p, s with
  | [], _ => Some s
  | a :: p', b :: s' => if (a =? b)%N then starts_with p' s' else None
  | _ :: _, [] => None
  end.

(** *** parseFloat *)

Definition is_digit (c : N) : bool := ((ch "0" <=? c) && (c <=? ch "9"))%N.

(** The longest run of decimal digits at the head of [s]. *)
Fixpoint span_digits (s : jsstring) : list N * jsstring :=
  match s with
  | c :: r =>
      if is_digit c then let '(ds, t) := span_digits r in (c :: ds, t)
      else ([], s)
  | [] => ([], [])
  end.

Definition digits_value (ds : list N) : Z :=
  fold_left (fun a d => 10 * a + Z.of_N (d - ch "0")) ds 0.

(** ExponentPart, when one is present at the head of [s]; otherwise
    exponent 0 and nothing consumed. *)
Definition exponent_part (s : jsstring) : Z * jsstring :=
  match s with
  | c :: r =>
      if ((c =? ch "e") || (c =? ch "E"))%N then
        let '(neg, r1) :=
          match r with
          | d :: r' =>
              if (d =? ch "+")%N then (false, r')
              else if (d =? ch "-")%N then (true, r')
              else (false, r)
          | [] => (false, r)
          end in
        let '(ds, r2) := span_digits r1 in
        match ds with
        | [] => (0, s)
        | _ => ((if neg then - digits_value ds else digits_value ds), r2)
        end
      else (0, s)
  | [] => (0, s)
  end.

(** The magnitude denoted by the longest StrUnsignedDecimalLiteral prefix. *)
Inductive magnitude :=
| MInfinity
| MDecimal (m : Z) (e : Z).

Definition unsigned_decimal (s : jsstring) : option (magnitude * jsstring) :=
  match starts_with (js "Infinity") s with
  | Some r => Some (MInfinity, r)
  | None =>
      let '(ip, r1) := span_digits s in
      let '(fp, r2) :=
        match r1 with
        | c :: r => if (c =? ch ".")%N then span_digits r else ([], r1)
        | [] => ([], r1)
        end in
      match ip, fp with
      | [], [] => None
      | _, _ =>
          let '(e, r3) := exponent_part r2 in
          Some (MDecimal (digits_value (ip ++ fp)) (e - Z.of_nat (length fp)), r3)
      end
  end.

Definition signed_decimal (s : jsstring) : option (bool * magnitude * jsstring) :=
  let '(neg, r) :=
    match s with
    | c :: r' =>
        if (c =? ch "+")%N then (false, r')
        else if (c =? ch "-")%N then (true, r')
        else (false, s)
    | [] => (false, s)
    end in
  match unsigned_decimal r with
  | Some (mag, rest) => Some (neg, mag, rest)
  | None => None
  end.

Definition number_of (neg : bool) (mag : magnitude) : number :=
  match mag with
  | MInfinity => S754_infinity neg
  | MDecimal m e => of_decimal neg m e
  end.

Definition parseFloat (s : jsstring) : number :=
  match signed_decimal (trimStart s) with
  | Some (neg, mag, _) => number_of neg mag
  | None => NaN
  end.

(** *** Values

    The run-time values that reach the modelled code: workbook cells,
    header cells and the fields of an account object. *)
Inductive any :=
| Undefined
| Null
| Bool (b : bool)
| Num (n : number)
| Str (s : jsstring).

(** ToBoolean. *)
Definition truthy (v : any) : bool :=
  match v with
  | Undefined | Null => false
  | Bool b => b
  | Num (S754_zero _) | Num S754_nan => false
  | Num _ => true
  | Str [] => false
  | Str _ => true
  end.

(** [a || b] and [a ?? b]. *)
Definition or (a b : any) : any := if truthy a then a else b.

Definition coalesce (a b : any) : any :=
  match a with
  | Undefined | Null => b
  | _ => a
  end.

(** [v === 'txt'] against a string literal. *)
Definition is_string (v : any) (txt : jsstring) : bool :=
  match v with
  | Str s => bool_decide (s = txt)
  | _ => false
  end.

(** [row[i]]: reading outside the array gives [undefined]. *)
Definition at_index (row : list any) (i : nat) : any :=
  match row !! i with
  | Some v => v
  | None => Undefined
  end.

(** [headers.findIndex(p)]; [None] stands for the result -1, and
    [row[-1]] is [undefined]. *)
Fixpoint findIndex (p : any -> bool) (l : list any) : option nat :=
  match l with
  | [] => None
  | h :: t => if p h then Some O else option_map S (findIndex p t)
  end.

Definition at_found (row : list any) (i : option nat) : any :=
  match i with
  | Some k => at_index row k
  | None => Undefined
  end.

(** Digits of a literal with a radix prefix ([0x], [0o], [0b]). *)
Definition radix_digit (radix : N) (c : N) : option N :=
  let d :=
    if is_digit c then Some (c - ch "0")%N
    else if ((ch "a" <=? c) && (c <=? ch "f"))%N then Some (c - ch "a" + 10)%N
    else if ((ch "A" <=? c) && (c <=? ch "F"))%N then Some (c - ch "A" + 10)%N
    else None in
  match d with
  | Some k => if (k <? radix)%N then Some k else None
  | None => None
  end.

Fixpoint radix_value (radix : N) (s : jsstring) (acc : Z) : option Z :=
  match s with
  | [] => Some acc
  | c :: r =>
      match radix_digit radix c with
      | Some d => radix_value radix r (Z.of_N radix * acc + Z.of_N d)
      | None => None
      end
  end.

Definition radix_literal (s : jsstring) : option (N * jsstring) :=
  match s with
  | z :: p :: ((_ :: _) as r) =>
      if negb (z =? ch "0")%N then None
      else if ((p =? ch "x") || (p =? ch "X"))%N then Some (16%N, r)
      else if ((p =? ch "o") || (p =? ch "O"))%N then Some (8%N, r)
      else if ((p =? ch "b") || (p =? ch "B"))%N then Some (2%N, r)
      else None
  | _ => None
  end.

(** StringToNumber: the whole trimmed text has to be a numeric literal. *)
Definition StringToNumber (s : jsstring) : number :=
  match trim s with
  | [] => S754_zero false
  | t =>
      match radix_literal t with
      | Some (radix, r) =>
          match radix_value radix r 0 with
          | Some z => of_Z z
          | None => NaN
          end
      | None =>
          match signed_decimal t with
          | Some (neg, mag, []) => number_of neg mag
          | _ => NaN
          end
      end
  end.

Definition ToNumber (v : any) : number :=
  match v with
  | Undefined => NaN
  | Null => S754_zero false
  | Bool true => of_Z 1
  | Bool false => S754_zero false
  | Num n => n
  | Str s => StringToNumber s
  end.

(** [a - b]. *)
Definition minus (a b : any) : number := sub (ToNumber a) (ToNumber b).

(** *** Completions: a computation returns or throws *)
Inductive completion (A : Type) :=
| Return (a : A)
| Throw (e : any).
Arguments Return {A} a.
Arguments Throw {A} e.

#[export] Instance completion_bind : MBind completion := fun A B k c =>
  match c with
  | Return a => k a
  | Throw e => Throw e
  end.

(** [try { body } catch (e) { handler }]. *)
Definition try_catch {A} (body : completion A) (handler : any -> completion A)
  : completion A :=
  match body with
  | Return a => Return a
  | Throw e => handler e
  end.

(** [a === b]. *)
Definition strict_equal (a b : any) : bool :=
  match a, b with
  | Undefined, Undefined | Null, Null => true
  | Bool x, Bool y => Bool.eqb x y
  | Num x, Num y => SFeqb x y
  | Str x, Str y => bool_decide (x = y)
  | _, _ => false
  end.

(** [s.endsWith(suffix)]. *)
Definition endsWith (s suffix : jsstring) : bool :=
  match starts_with (rev suffix) (rev s) with
  | Some _ => true
  | None => false
  end.

(** [/^\d{6}$/.test(s)]. *)
Definition six_digits (s : jsstring) : bool :=
  (length s =? 6)%nat && forallb is_digit s.

(** [a < b] on strings: by code units, a proper prefix first. *)
Fixpoint str_lt (a b : jsstring) : bool :=
  match a, b with
  | _, [] => false
  | [], _ :: _ => true
  | x :: a', y :: b' =>
      if (x <? y)%N then true
      else if (x =? y)%N then str_lt a' b'
      else false
  end.

Definition str_le (a b : jsstring) : bool := negb (str_lt b a).

(** [Array.prototype.sort]: the sort is stable, so with a consistent
    comparator its result is the one list that holds the same elements in
    comparator order with ties in their first order.  [before x y] says
    that the comparator does not put [y] in front of [x]. *)
Fixpoint place {A} (before : A -> A -> bool) (x : A) (l : list A) : list A :=
  match l with
  | [] => [x]
  | y :: r => if before x y then x :: l else y :: place before x r
  end.

Definition sort_by {A} (before : A -> A -> bool) (l : list A) : list A :=
  fold_right (place before) [] l.


(** *** Integers

    [parseInt] and the arithmetic of the month keys stay on integers far
    below 2^53, where the arithmetic of doubles is exact: such numbers are
    embedded as [Z], and [None] stands for NaN. *)

(** The value of the longest prefix of digits in the radix, if any. *)
Fixpoint radix_prefix (radix : N) (s : jsstring) (acc : option Z) : option Z :=
  match s with
  | c :: r =>
      match radix_digit radix c with
      | Some d =>
          radix_prefix radix r
            (Some (Z.of_N radix * match acc with Some a => a | None => 0 end + Z.of_N d))
      | None => acc
      end
  | [] => acc
  end.

(** [parseInt(s)], without a radix argument. *)
Definition parseInt (s : jsstring) : option Z :=
  let '(neg, r) :=
    match trimStart s with
    | c :: r' =>
        if (c =? ch "+")%N then (false, r')
        else if (c =? ch "-")%N then (true, r')
        else (false, c :: r')
    | [] => (false, [])
    end in
  let magnitude :=
    match r with
    | z :: x :: r' =>
        if (z =? ch "0")%N && ((x =? ch "x") || (x =? ch "X"))%N
        then radix_prefix 16 r' None
        else radix_prefix 10 r None
    | _ => radix_prefix 10 r None
    end in
  match magnitude with
  | Some z => Some (if neg then - z else z)
  | None => None
  end.

(** The decimal digits of a natural number, the last one first. *)
Fixpoint decimal_digits (fuel : nat) (n : N) (acc : jsstring) : jsstring :=
  match fuel with
  | O => acc
  | S fuel' =>
      let acc' := (ch "0" + n mod 10)%N :: acc in
      if (n / 10 =? 0)%N then acc' else decimal_digits fuel' (n / 10) acc'
  end.

Definition decimal (n : N) : jsstring :=
  decimal_digits (S (N.to_nat (N.log2 n))) n [].

(** The text of an integer below 10^21, or of NaN, in a template
    literal. *)
Definition show (v : option Z) : jsstring :=
  match v with
  | None => js "NaN"
  | Some (Zneg p) => ch "-" :: decimal (Npos p)
  | Some z => decimal (Z.to_N z)
  end.

(** *** Number.prototype.toFixed *)

(** The integer [n] for which [n / 10^f - x] is as close to zero as
    possible, the larger one if there are two, for [x = m * 2^e]: the
    floor of [x * 10^f + 1/2]. *)
Definition nearest_scaled (f : nat) (m : positive) (e : Z) : Z :=
  match e with
  | Zneg p => (2 * Zpos m * 10 ^ Z.of_nat f + 2 ^ Zpos p) / 2 ^ (Zpos p + 1)
  | _ => Zpos m * 2 ^ e * 10 ^ Z.of_nat f
  end.

(** The digits of [n], filled with zeros up to [f + 1] of them, with a
    point before the last [f]. *)
Definition fixed_point (f : nat) (n : Z) : jsstring :=
  let m := decimal (Z.to_N n) in
  let m :=
    if (length m <=? f)%nat then repeat (ch "0") (S f - length m) ++ m else m in
  match f with
  | O => m
  | _ => take (length m - f) m ++ ch "." :: drop (length m - f) m
  end.

Section ToString.
(** [Number.prototype.toString], a built-in of the host. *)
Variable numberToString : number -> jsstring.

(** [x.toFixed(fractionDigits)], for at most 100 fraction digits: a
    number that is not finite, or a magnitude of 10^21 and more, is left
    to [toString]. *)
Definition toFixed (x : number) (fractionDigits : nat) : jsstring :=
  match x with
  | S754_finite neg m e =>
      (if neg then [ch "-"] else [])
      ++ (if greater_equal (S754_finite false m e) (of_Z (10 ^ 21))
          then numberToString (S754_finite false m e)
          else fixed_point fractionDigits (nearest_scaled fractionDigits m e))
  | S754_zero _ => fixed_point fractionDigits 0
  | _ => numberToString x
  end.

(** [v?.toString()]: [None] stands for [undefined]. *)
Definition opt_toString (v : any) : option jsstring :=
  match v with
  | Undefined | Null => None
  | Bool true => Some (js "true")
  | Bool false => Some (js "false")
  | Num n => Some (numberToString n)
  | Str s => Some s
  end.

(** The property key [account[header]] writes to. *)
Definition property_key (header : any) : jsstring :=
  match header with
  | Undefined => js "undefined"
  | Null => js "null"
  | Bool true => js "true"
  | Bool false => js "false"
  | Num n => numberToString n
  | Str s => s
  end.
End ToString.

End JS.

(** ** The data directory *)

Module Disk.
Import JS.

(** What reading a file and decoding it as a workbook gives. *)
Inductive content :=
| Corrupt (e : any)                          (* reading or decoding throws *)
| Sheetless                                  (* [SheetNames] missing or empty *)
| FirstSheet (jsonData : list (list any)).   (* the decoded first sheet *)

(** What the data directory holds under one name. *)
Inductive dirent :=
| Vanished                 (* [statSync] throws *)
| Plain                    (* not a directory *)
| Folder (files : completion (list (jsstring * content))).
                           (* a directory, and what [readdirSync] gives *)

(** The data directory: absent, or what [readdirSync] gives for it. *)
Abbreviation directory := (option (completion (list (jsstring * dirent)))).

End Disk.


(** ** The Excel reader library: [lib/excelReader] *)

Module ExcelReader.
Import JS.

(** An account object: a dictionary from field name to string or number. *)
Abbreviation AccountData := (gmap jsstring any).

(** [account.k]: a missing property reads as [undefined]. *)
Definition prop (account : AccountData) (k : jsstring) : any :=
  match account !! k with
  | Some v => v
  | None => Undefined
  end.

Definition 公众号 : jsstring := js "公众号".
Definition 帐号名 : jsstring := js "帐号名".
Definition 转发总量 : jsstring := js "转发总量".

Definition parseNumber (value : any) : number :=
  match value with
  | Num n => n
  | Str s =>
      let cleaned := remove_all (N.eqb (ch "+")) (trim s) in
      if includes cleaned (ch "w") then
        let numPart := remove_first (ch "+") (remove_first (ch "w") cleaned) in
        let num := parseFloat numPart in
        if isNaN num then zero else mul num (of_Z 10000)
      else
        let num := parseFloat cleaned in
        if isNaN num then zero else num
  | _ => zero
  end.

(** [account[key] = v] on an object created by [{}]: a primitive written to
    [__proto__] reaches the inherited setter, which ignores it; any other
    key becomes (or overwrites) an own property. *)
Definition assign (account : AccountData) (key : jsstring) (v : any) : AccountData :=
  if bool_decide (key = js "__proto__") then account else <[key := v]> account.

(** [row && (row[0] || row[1])], for a row that is an array. *)
Definition kept (row : list any) : bool :=
  truthy (or (at_index row 0) (at_index row 1)).

Section Reader.
Variable numberToString : number -> jsstring.

(** The value stored for one header cell: the two name columns keep the
    cell as text, every other column is parsed as a number. *)
Definition field (header value : any) : any :=
  if is_string header 公众号 || is_string header 帐号名 then
    match opt_toString numberToString value with
    | Some ((_ :: _) as s) => Str s
    | _ => Str []
    end
  else Num (parseNumber value).

(** The callback of [dataRows.map]: [headers.forEach] fills the object
    from left to right. *)
Definition toAccount (headers row : list any) : AccountData :=
  fold_left
    (fun account '(index, header) =>
       assign account (property_key numberToString header)
              (field header (at_index row index)))
    (imap pair headers) ∅.

Definition accounts (headers : list any) (dataRows : list (list any))
  : list AccountData :=
  map (toAccount headers) (List.filter kept dataRows).

(** [readExcelFile], from the decoded first sheet [jsonData] on: the
    promise is rejected ([Throw]) or resolved ([Return]). *)
Definition readExcelFile (jsonData : list (list any))
  : completion (list AccountData) :=
  match jsonData with
  | headers :: ((_ :: _) as dataRows) => Return (accounts headers dataRows)
  | _ => Throw (Str (js "Excel 文件格式不正确，至少需要表头和数据行"))
  end.
End Reader.

Section Format.
(** [Number.prototype.toLocaleString] with the locale ['zh-CN'] and
    [Number.prototype.toString], built-ins of the host. *)
Variable toLocaleString : number -> jsstring.
Variable numberToString : number -> jsstring.

Definition formatNumber (num : number) : jsstring :=
  if greater_equal num (of_Z 10000)
  then toFixed numberToString (div num (of_Z 10000)) 1 ++ js "w"
  else toLocaleString num.

End Format.

Definition getAccountKey (account : AccountData) : any :=
  or (or (prop account 帐号名) (prop account 公众号)) (Str []).

(** [T | { error: string }]. *)
Inductive safe :=
| Value (v : any)
| Failed (error : jsstring).

Definition 数据错误 : jsstring := js "数据错误".

Definition safeGetValue (getter : unit -> completion any) (fieldName : jsstring)
  : completion safe :=
  try_catch
    (value ← getter tt;
     match value with
     | Num n =>
         if isNaN n || negb (isFinite n)
         then Return (Failed (fieldName ++ 数据错误))
         else Return (Value value)
     | _ => Return (Value value)
     end)
    (fun _ => Return (Failed (fieldName ++ 数据错误))).

(** One labelled metric of the display object. *)
Record metric (I : Type) := { value : safe; increment : I }.
Arguments value {I} _.
Arguments increment {I} _.

(** The object returned by [getDisplayMetrics]; its keys ['10万+'] and
    ['WCI/排名'] are written [十万加] and [WCI排名] here. *)
Record DisplayMetrics := {
  账号名称 : safe;
  发文数 : metric safe;
  总阅读数 : metric safe;
  头条阅读 : metric safe;
  十万加 : metric safe;
  平均阅读 : metric safe;
  总在看数 : metric safe;
  总点赞数 : metric safe;
  总转发数 : metric (option number);
  WCI排名 : metric safe
}.

(** The locally computed increment of the forward total; [None] is the
    [null] of the source. *)
Definition forwardIncrement (account : AccountData) (previousAccount : option AccountData)
  : completion (option number) :=
  match previousAccount with
  | Some previous =>
      try_catch
        (let currentForward := or (prop account 转发总量) (Num zero) in
         let previousForward := or (prop previous 转发总量) (Num zero) in
         Return (Some (minus currentForward previousForward)))
        (fun _ => Return None)
  | None => Return None
  end.

(** [() => account.k ?? 0], read through [safeGetValue]. *)
Definition read (account : AccountData) (k : string) (label : string)
  : completion safe :=
  safeGetValue (fun _ => Return (coalesce (prop account (js k)) (Num zero))) (js label).

Definition getDisplayMetrics (account : AccountData) (previousAccount : option AccountData)
  : completion DisplayMetrics :=
  forwardIncrement ← forwardIncrement account previousAccount;
  name ← safeGetValue
    (fun _ => Return (or (or (prop account 公众号) (prop account 帐号名)) (Str (js "-"))))
    (js "账号名称");
  v1 ← read account "文章总数" "发文数";
  i1 ← read account "文章总增量" "发文数增量";
  v2 ← read account "阅读总数" "总阅读数";
  i2 ← read account "阅读总数增量" "总阅读数增量";
  v3 ← read account "头条文章阅读量" "头条阅读";
  i3 ← read account "头条文章阅读增量" "头条阅读增量";
  v4 ← read account "超10W文章数" "10万+";
  i4 ← read account "超10W文章数增量" "10万+增量";
  v5 ← read account "平均阅读数" "平均阅读";
  i5 ← read account "平均阅读数增量" "平均阅读增量";
  v6 ← read account "推荐总数" "总在看数";
  i6 ← read account "推荐总数增量" "总在看数增量";
  v7 ← read account "点赞总数" "总点赞数";
  i7 ← read account "点赞数增量" "总点赞数增量";
  v8 ← read account "转发总量" "总转发数";
  v9 ← read account "总排名" "WCI/排名";
  i9 ← read account "总排名变化" "WCI/排名变化";
  Return {|
    账号名称 := name;
    发文数 := {| value := v1; increment := i1 |};
    总阅读数 := {| value := v2; increment := i2 |};
    头条阅读 := {| value := v3; increment := i3 |};
    十万加 := {| value := v4; increment := i4 |};
    平均阅读 := {| value := v5; increment := i5 |};
    总在看数 := {| value := v6; increment := i6 |};
    总点赞数 := {| value := v7; increment := i7 |};
    总转发数 := {| value := v8; increment := forwardIncrement |};
    WCI排名 := {| value := v9; increment := i9 |}
  |}.

End ExcelReader.

(** ** The per-month data route: [app/api/data/route.ts] *)

Module DataRoute.
Import JS.

Abbreviation AccountData := (gmap jsstring any).

Definition parseNumber (value : any) : number :=
  match value with
  | Num n => n
  | Str s =>
      let cleaned := remove_all (N.eqb (ch "+")) (trim s) in
      if includes cleaned (ch "w") then
        let numPart := remove_first (ch "+") (remove_first (ch "w") cleaned) in
        let num := parseFloat numPart in
        if isNaN num then zero else mul num (of_Z 10000)
      else
        let num := parseFloat cleaned in
        if isNaN num then zero else num
  | _ => zero
  end.

Definition assign (account : AccountData) (key : jsstring) (v : any) : AccountData :=
  if bool_decide (key = js "__proto__") then account else <[key := v]> account.

Definition kept (row : list any) : bool :=
  truthy (or (at_index row 0) (at_index row 1)).

(** The JSON answer of the route: the accounts, or an error with its
    HTTP status. *)
Inductive response :=
| Data (data : list AccountData)
| Error (status : N) (error : jsstring).

Section Route.
Variable numberToString : number -> jsstring.

Definition field (header value : any) : any :=
  if is_string header (js "公众号") || is_string header (js "帐号名") then
    match opt_toString numberToString value with
    | Some ((_ :: _) as s) => Str s
    | _ => Str []
    end
  else Num (parseNumber value).

Definition toAccount (headers row : list any) : AccountData :=
  fold_left
    (fun account '(index, header) =>
       assign account (property_key numberToString header)
              (field header (at_index row index)))
    (imap pair headers) ∅.

(** [GET] with a [month] parameter, from the decoded first sheet
    [jsonData] on. *)
Definition GET (jsonData : list (list any)) : response :=
  match jsonData with
  | headers :: ((_ :: _) as dataRows) =>
      match headers with
      | [] => Error 400 (js "Excel 文件缺少表头")
      | _ => Data (map (toAccount headers) (List.filter kept dataRows))
      end
  | _ => Error 400 (js "Excel 文件格式不正确，至少需要表头和数据行")
  end.
End Route.


(** The callback of [readdirSync(DATA_DIR).filter]: a folder named by six
    digits that can be listed and holds an Excel file; a failure inside
    the callback gives [false]. *)
Definition listed (item : jsstring * Disk.dirent) : bool :=
  match item.2 with
  | Disk.Folder files =>
      if negb (six_digits item.1) then false
      else
        match files with
        | Return files =>
            existsb
              (fun file => endsWith file.1 (js ".xlsx") || endsWith file.1 (js ".xls"))
              files
        | Throw _ => false
        end
  | _ => false
  end.

(** [GET] without a [month] parameter: the [months] of the answer. *)
Definition months (dataDir : Disk.directory) : list jsstring :=
  match dataDir with
  | None => []
  | Some (Throw _) => []
  | Some (Return items) => rev (sort_by str_le (map fst (List.filter listed items)))
  end.

End DataRoute.

(** ** The yearly statistics route *)

Module YearlyStats.
Import JS.

Definition TARGET_ACCOUNTS : list jsstring :=
  [js "新智元"; js "机器之心"; js "量子位"].

Definition parseNumber (value : any) : number :=
  match value with
  | Num n => n
  | Str s =>
      let cleaned := remove_all (N.eqb (ch "+")) (trim s) in
      if includes (toLowerCase cleaned) (ch "w") then
        let numPart :=
          remove_first (ch "+")
            (remove_all (fun c => N.eqb c (ch "w") || N.eqb c (ch "W")) cleaned) in
        let num := parseFloat numPart in
        if isNaN num then zero else mul num (of_Z 10000)
      else
        let num := parseFloat cleaned in
        if isNaN num then zero else num
  | _ => zero
  end.

Record MonthlyData := {
  month : jsstring;
  阅读总数 : number;
  头条文章阅读量 : number;
  转发总量 : number
}.

(** The [total] object of an account; the three sums are named after
    the fields of the source. *)
Record Total := {
  total_阅读总数 : number;
  total_头条文章阅读量 : number;
  total_转发总量 : number
}.

Record AccountYearlyStats := {
  accountName : jsstring;
  monthlyData : list MonthlyData;
  total : Total
}.

(** What the loop finds for one month folder. *)
Inductive folder :=
| Unlistable                           (* [readdirSync(monthDir)] throws *)
| NoExcelFile                          (* no [.xlsx] or [.xls] file *)
| Unreadable (e : any)                 (* reading or decoding the file throws *)
| NoSheets                             (* [SheetNames] missing or empty *)
| Sheet (jsonData : list (list any)).  (* the decoded first sheet *)

Inductive response :=
| Stats (data : list (option AccountYearlyStats)) (months : list jsstring)
| ServerError (status : N).

(** [statsMap], after [TARGET_ACCOUNTS.forEach(name => statsMap.set ...)]. *)
Definition initial : gmap jsstring AccountYearlyStats :=
  fold_left
    (fun statsMap name =>
       <[name := {| accountName := name;
                    monthlyData := [];
                    total := {| total_阅读总数 := zero;
                                total_头条文章阅读量 := zero;
                                total_转发总量 := zero |} |}]> statsMap)
    TARGET_ACCOUNTS ∅.

(** [readTotalIdx >= 0 ? parseNumber(row[readTotalIdx]) : 0]. *)
Definition column (row : list any) (idx : option nat) : number :=
  match idx with
  | Some i => parseNumber (at_index row i)
  | None => zero
  end.

(** [stats.monthlyData.push(monthData)] and the three [stats.total.k +=
    monthData.k]: the object held by [statsMap] is updated in place. *)
Definition record (stats : AccountYearlyStats) (monthData : MonthlyData)
  : AccountYearlyStats :=
  {| accountName := accountName stats;
     monthlyData := monthlyData stats ++ [monthData];
     total :=
       {| total_阅读总数 := add (total_阅读总数 (total stats)) (阅读总数 monthData);
          total_头条文章阅读量 :=
            add (total_头条文章阅读量 (total stats)) (头条文章阅读量 monthData);
          total_转发总量 := add (total_转发总量 (total stats)) (转发总量 monthData) |} |}.

Section Route.
Variable numberToString : number -> jsstring.

(** [row[accountNameIdx]?.toString().trim()]. *)
Definition nameOf (row : list any) (accountNameIdx : option nat) : option jsstring :=
  option_map trim (opt_toString numberToString (at_found row accountNameIdx)).

(** The body of [for (const row of dataRows)]. *)
Definition visitRow (month : jsstring)
    (accountNameIdx readTotalIdx headlineReadIdx forwardTotalIdx : option nat)
    (statsMap : gmap jsstring AccountYearlyStats) (row : list any)
  : gmap jsstring AccountYearlyStats :=
  if negb (truthy (at_found row accountNameIdx)) then statsMap
  else
    match nameOf row accountNameIdx with
    | Some accountName =>
        if bool_decide (accountName ∈ TARGET_ACCOUNTS) then
          match statsMap !! accountName with
          | Some stats =>
              let monthData :=
                {| month := month;
                   阅读总数 := column row readTotalIdx;
                   头条文章阅读量 := column row headlineReadIdx;
                   转发总量 := column row forwardTotalIdx |} in
              <[accountName := record stats monthData]> statsMap
          | None => statsMap
          end
        else statsMap
    | None => statsMap
    end.

(** The [try] block of one month, once the Excel file is located. *)
Definition readMonth (month : jsstring) (f : folder)
    (statsMap : gmap jsstring AccountYearlyStats)
  : completion (gmap jsstring AccountYearlyStats) :=
  match f with
  | Unreadable e => Throw e
  | NoSheets => Return statsMap
  | Sheet (headers :: ((_ :: _) as dataRows)) =>
      let accountNameIdx :=
        findIndex (fun h => is_string h (js "公众号") || is_string h (js "帐号名"))
                  headers in
      let readTotalIdx := findIndex (fun h => is_string h (js "阅读总数")) headers in
      let headlineReadIdx :=
        findIndex (fun h => is_string h (js "头条文章阅读量")) headers in
      let forwardTotalIdx := findIndex (fun h => is_string h (js "转发总量")) headers in
      Return
        (fold_left
           (visitRow month accountNameIdx readTotalIdx headlineReadIdx forwardTotalIdx)
           dataRows statsMap)
  | _ => Return statsMap
  end.

(** The body of [for (const month of months)]. *)
Definition visitMonth (statsMap : gmap jsstring AccountYearlyStats)
    (m : jsstring * folder)
  : completion (gmap jsstring AccountYearlyStats) :=
  match m.2 with
  | Unlistable => Throw (Str (js "ENOENT"))
  | NoExcelFile => Return statsMap
  | f => try_catch (readMonth m.1 f statsMap) (fun _ => Return statsMap)
  end.

Fixpoint visitMonths (months : list (jsstring * folder))
    (statsMap : gmap jsstring AccountYearlyStats)
  : completion (gmap jsstring AccountYearlyStats) :=
  match months with
  | [] => Return statsMap
  | m :: rest => statsMap' ← visitMonth statsMap m; visitMonths rest statsMap'
  end.

(** [GET], from the sorted month folders on. *)
Definition GET (months : list (jsstring * folder)) : response :=
  match
    try_catch
      (statsMap ← visitMonths months initial;
       Return (Stats (map (fun name => statsMap !! name) TARGET_ACCOUNTS)
                     (map fst months)))
      (fun _ => Return (ServerError 500))
  with
  | Return r => r
  | Throw _ => ServerError 500
  end.
End Route.


(** The callback of [readdirSync(DATA_DIR).filter]. *)
Definition listed (item : jsstring * Disk.dirent) : bool :=
  match item.2 with
  | Disk.Folder files =>
      if negb (six_digits item.1) then false
      else
        match files with
        | Return files =>
            existsb
              (fun file => endsWith file.1 (js ".xlsx") || endsWith file.1 (js ".xls"))
              files
        | Throw _ => false
        end
  | _ => false
  end.

(** What the loop finds when it lists a month folder again, takes its
    first Excel file, reads it and decodes it. *)
Definition folder_of (e : Disk.dirent) : folder :=
  match e with
  | Disk.Folder (Return files) =>
      match
        find (fun file => endsWith file.1 (js ".xlsx") || endsWith file.1 (js ".xls"))
             files
      with
      | None => NoExcelFile
      | Some (_, Disk.Corrupt e) => Unreadable e
      | Some (_, Disk.Sheetless) => NoSheets
      | Some (_, Disk.FirstSheet jsonData) => Sheet jsonData
      end
  | _ => Unlistable
  end.

(** The month folders in the order of [.filter(...).sort()]; on a disk
    the names are distinct, and each name goes with its folder. *)
Definition scan (items : list (jsstring * Disk.dirent)) : list (jsstring * folder) :=
  map (fun item => (item.1, folder_of item.2))
      (sort_by (fun a b => str_le a.1 b.1) (List.filter listed items)).

(** [GET], from the data directory on; the directory is the same when the
    loop reads it as when the months were listed. *)
Definition route (numberToString : number -> jsstring) (dataDir : Disk.directory)
  : response :=
  match dataDir with
  | None => ServerError 404
  | Some (Throw _) => ServerError 500
  | Some (Return items) => GET numberToString (scan items)
  end.

End YearlyStats.

(** ** The monthly board: the page that shows one month *)

Module Page.
Import JS.

(** [s.match(/^(\d{4})(\d{2})$/)]: the two groups. *)
Definition year_month (s : jsstring) : option (jsstring * jsstring) :=
  if six_digits s then Some (take 4 s, drop 4 s) else None.

(** [/(\d{4})[年\-]?(\d{1,2})/] tried at the head of [s]: the two groups. *)
Definition year_month_here (s : jsstring) : option (jsstring * jsstring) :=
  match s with
  | y1 :: y2 :: y3 :: y4 :: r =>
      if forallb is_digit [y1; y2; y3; y4] then
        let r' :=
          match r with
          | c :: t => if bool_decide ([c] = js "年") || (c =? ch "-")%N then t else r
          | [] => r
          end in
        match r' with
        | m1 :: t =>
            if is_digit m1 then
              match t with
              | m2 :: _ =>
                  if is_digit m2 then Some ([y1; y2; y3; y4], [m1; m2])
                  else Some ([y1; y2; y3; y4], [m1])
              | [] => Some ([y1; y2; y3; y4], [m1])
              end
            else None
        | [] => None
        end
      else None
  | _ => None
  end.

(** [s.match(/(\d{4})[年\-]?(\d{1,2})/)]: the leftmost match. *)
Fixpoint year_month_search (s : jsstring) : option (jsstring * jsstring) :=
  match year_month_here s with
  | Some groups => Some groups
  | None =>
      match s with
      | _ :: r => year_month_search r
      | [] => None
      end
  end.

Definition formatMonthDisplay (monthCode : jsstring) : jsstring :=
  match year_month monthCode with
  | Some (year, month) => year ++ js "年" ++ show (parseInt month) ++ js "月"
  | None => monthCode
  end.

Definition parseMonthKey (monthKey : jsstring) : option Z :=
  match year_month monthKey with
  | Some _ => parseInt monthKey
  | None =>
      match year_month_search monthKey with
      | Some (y, m) =>
          match parseInt y, parseInt m with
          | Some year, Some month => Some (year * 100 + month)
          | _, _ => None
          end
      | None => Some 0
      end
  end.

(** The comparator of [sortMonths] gives [bValue - aValue]; a NaN counts
    as 0. *)
Definition newer_first (a b : jsstring) : bool :=
  match parseMonthKey b, parseMonthKey a with
  | Some bValue, Some aValue => bValue - aValue <=? 0
  | _, _ => true
  end.

Definition sortMonths (months : list jsstring) : list jsstring :=
  sort_by newer_first months.

(** The month selected once the month list is loaded: the first of the
    sorted months, unless a month is selected already. *)
Definition selectMonth (months : list jsstring) (selectedMonth : jsstring) : jsstring :=
  match sortMonths months with
  | newest :: _ => if bool_decide (selectedMonth = []) then newest else selectedMonth
  | [] => selectedMonth
  end.


Definition findPreviousAccountData (previousData : list (gmap jsstring any))
    (account : gmap jsstring any) : option (gmap jsstring any) :=
  let key := ExcelReader.getAccountKey account in
  find (fun prev => strict_equal (ExcelReader.getAccountKey prev) key) previousData.

(** One row of the table: [getDisplayMetrics(account,
    findPreviousAccountData(account))]. *)
Definition metricsOf (previousData : list (gmap jsstring any))
    (account : gmap jsstring any) : completion ExcelReader.DisplayMetrics :=
  ExcelReader.getDisplayMetrics account (findPreviousAccountData previousData account).

End Page.

(** ** The yearly page: [app/thressvs/page.tsx] *)

Module ThreeVsPage.
Import JS.

Definition formatMonthDisplay (monthCode : jsstring) : jsstring :=
  match Page.year_month monthCode with
  | Some (_, month) => show (parseInt month) ++ js "月"
  | None => monthCode
  end.

(** [monthCode.match(/^(\d{4})/)]: the group, or the empty string. *)
Definition getYear (monthCode : jsstring) : jsstring :=
  match monthCode with
  | y1 :: y2 :: y3 :: y4 :: _ =>
      if forallb is_digit [y1; y2; y3; y4] then [y1; y2; y3; y4] else []
  | _ => []
  end.

(** [account.monthlyData.find(m => m.month === month)]: the item a month
    column shows, or none (the cell shows [-]). *)
Definition monthCell (account : YearlyStats.AccountYearlyStats) (month : jsstring)
  : option YearlyStats.MonthlyData :=
  find (fun m => bool_decide (YearlyStats.month m = month))
       (YearlyStats.monthlyData account).

End ThreeVsPage.

(** * The vocabulary of the properties *)

Section Reading.
Import JS ExcelReader.

(** What [safeGetValue] treats as a failed read: a getter that throws, or
    one that produces NaN or a non-finite number. *)
Definition fails (outcome : completion any) : bool :=
  match outcome with
  | Throw _ => true
  | Return (Num n) => isNaN n || negb (isFinite n)
  | Return _ => false
  end.

(** The text held by a name field; a missing field holds none. *)
Definition text (v : any) : jsstring :=
  match v with
  | Str s => s
  | _ => []
  end.

(** A text, or nothing at all. *)
Definition textual (v : any) : bool :=
  match v with
  | Str _ | Undefined | Null => true
  | _ => false
  end.

(** An empty cell: the empty text, or nothing at all. *)
Definition blank (v : any) : bool :=
  match v with
  | Undefined | Null | Str [] => true
  | _ => false
  end.

(** The cell of [row] under the column that [headers] names [name]. *)
Definition cell_of (headers row : list any) (name : jsstring) : any :=
  at_found row (findIndex (fun h => is_string h name) headers).

(** One of the two name cells of [row] is not empty. *)
Definition named (headers row : list any) : bool :=
  negb (blank (cell_of headers row 公众号) && blank (cell_of headers row 帐号名)).

End Reading.

Section Series.
Import JS YearlyStats.

Variable numberToString : number -> jsstring.

(** The sum of one metric over a series: IEEE additions from 0, in series
    order. *)
Definition series_sum (metric : MonthlyData -> number) (series : list MonthlyData)
  : number :=
  fold_left (fun acc d => add acc (metric d)) series zero.

Definition balanced (stats : AccountYearlyStats) : Prop :=
  series_sum 阅读总数 (monthlyData stats) = total_阅读总数 (total stats)
  /\ series_sum 头条文章阅读量 (monthlyData stats) = total_头条文章阅读量 (total stats)
  /\ series_sum 转发总量 (monthlyData stats) = total_转发总量 (total stats).

(** [row] is a record of the account [name]: its name cell is truthy and
    reads, trimmed, as [name]. *)
Definition names_account (accountNameIdx : option nat) (name : jsstring)
    (row : list any) : bool :=
  truthy (at_found row accountNameIdx)
  && bool_decide (nameOf numberToString row accountNameIdx = Some name).

(** The month folder holds a record of the account [name]. *)
Definition has_record (name : jsstring) (f : folder) : bool :=
  match f with
  | Sheet (headers :: ((_ :: _) as dataRows)) =>
      existsb
        (names_account
           (findIndex (fun h => is_string h (js "公众号") || is_string h (js "帐号名"))
                      headers)
           name)
        dataRows
  | _ => false
  end.

(** The items a list of month folders can contribute to an account. *)
Definition from_months (months : list (jsstring * folder)) (name : jsstring)
    (d : MonthlyData) : Prop :=
  exists f, In (month d, f) months /\ has_record name f = true.

(** The invariant of the two loops: every entry of [statsMap] keeps its
    name, its totals are the sums of its series, and each item of its
    series comes [from] a record of that account. *)
Definition sound (from : jsstring -> MonthlyData -> Prop)
    (statsMap : gmap jsstring AccountYearlyStats) : Prop :=
  forall name stats, statsMap !! name = Some stats ->
    accountName stats = name /\ balanced stats /\ Forall (from name) (monthlyData stats).

Definition tracked (statsMap : gmap jsstring AccountYearlyStats) : Prop :=
  forall name, name ∈ TARGET_ACCOUNTS -> is_Some (statsMap !! name).


End Series.

(** ** Months, accounts and what the pages show *)

Section Board.
Import JS ExcelReader.

(** The key of a month, as an integer. *)
Definition month_key (s : jsstring) : Z :=
  match Page.parseMonthKey s with
  | Some k => k
  | None => 0
  end.

(** A header row of texts. *)
Definition all_strings (headers : list any) : Prop :=
  Forall (fun h => exists s, h = Str s) headers.

(** Two records of one account: their keys are strictly equal. *)
Definition same_key (a b : AccountData) : bool :=
  strict_equal (getAccountKey a) (getAccountKey b).

(** The entries of the display object that are read through
    [safeGetValue]: all of them but the increment of the forward total. *)
Definition wrapped (d : DisplayMetrics) : list safe :=
  [ 账号名称 d;
    value (发文数 d); increment (发文数 d);
    value (总阅读数 d); increment (总阅读数 d);
    value (头条阅读 d); increment (头条阅读 d);
    value (十万加 d); increment (十万加 d);
    value (平均阅读 d); increment (平均阅读 d);
    value (总在看数 d); increment (总在看数 d);
    value (总点赞数 d); increment (总点赞数 d);
    value (总转发数 d);
    value (WCI排名 d); increment (WCI排名 d) ].

(** An entry a cell can show: an error object, or a value that, if it is
    a number, is finite. *)
Definition shown (entry : safe) : Prop :=
  forall n, entry = Value (Num n) -> isFinite n = true.

(** No code unit of [s] is [c]. *)
Definition none_is (c : N) (s : jsstring) : bool :=
  forallb (fun x => negb (x =? c)%N) s.

End Board.

Section Items.
Import JS YearlyStats.

Variable numberToString : number -> jsstring.

(** The items one month folder adds to the series of the account
    [name]: one for each of its records, in the order of the rows. *)
Definition items (name : jsstring) (m : jsstring * folder) : list MonthlyData :=
  match m.2 with
  | Sheet (headers :: ((_ :: _) as dataRows)) =>
      map
        (fun row =>
           {| month := m.1;
              阅读总数 :=
                column row (findIndex (fun h => is_string h (js "阅读总数")) headers);
              头条文章阅读量 :=
                column row (findIndex (fun h => is_string h (js "头条文章阅读量")) headers);
              转发总量 :=
                column row (findIndex (fun h => is_string h (js "转发总量")) headers) |})
        (List.filter
           (names_account numberToString
              (findIndex (fun h => is_string h (js "公众号") || is_string h (js "帐号名"))
                         headers)
              name)
           dataRows)
  | _ => []
  end.

End Items.

(** ** Sample inputs *)

Section Samples.
Import JS.

(** The sample sheets hold texts only, so that [Number.prototype.toString]
    is never called on them; this stands for it there. *)
Definition not_called : number -> jsstring := fun _ => [].

Definition forwards (n : number) : gmap jsstring any :=
  {[ ExcelReader.转发总量 := Num n ]}.

Definition names (alternate primary : string) : gmap jsstring any :=
  <[ ExcelReader.帐号名 := Str (js alternate) ]>
    {[ ExcelReader.公众号 := Str (js primary) ]}.

Definition standard : list any :=
  [Str (js "公众号"); Str (js "帐号名"); Str (js "阅读总数")].

Definition reads_first : list any :=
  [Str (js "阅读总数"); Str (js "公众号"); Str (js "帐号名")].

Definition duplicated : list any :=
  [Str (js "公众号"); Str (js "阅读总数"); Str (js "阅读总数")].

Definition duplicated_row : list any :=
  [Str (js "A"); Str (js "1"); Str (js "2")].

Definition january : jsstring * YearlyStats.folder :=
  (js "202501",
   YearlyStats.Sheet
     [ [Str (js "公众号"); Str (js "阅读总数"); Str (js "转发总量")];
       [Str (js "新智元"); Str (js "1.2w"); Str (js "30")];
       [Str (js "量子位"); Str (js "8000"); Str (js "+12")] ]).

Definition february : jsstring * YearlyStats.folder :=
  (js "202502", YearlyStats.Unreadable (Str (js "Unsupported file"))).

Definition march : jsstring * YearlyStats.folder :=
  (js "202503",
   YearlyStats.Sheet
     [ [Str (js "公众号"); Str (js "阅读总数"); Str (js "转发总量")];
       [Str (js "新智元"); Str (js "0.5w"); Str (js "7")] ]).

(** A sample data directory: two month folders, out of order, and a
    plain file. *)
Definition sample_disk : list (jsstring * Disk.dirent) :=
  [ (js "202502",
     Disk.Folder (Return [(js "readme.txt", Disk.Corrupt Undefined);
                          (js "b.xls", Disk.FirstSheet (match march.2 with
                                                         | YearlyStats.Sheet jsonData =>
                                                             jsonData
                                                         | _ => []
                                                         end))]));
    (js "notes.txt", Disk.Plain);
    (js "202501",
     Disk.Folder (Return [(js "a.xlsx", Disk.FirstSheet (match january.2 with
                                                          | YearlyStats.Sheet jsonData =>
                                                              jsonData
                                                          | _ => []
                                                          end))])) ].

End Samples.

(** * Properties *)

(** ** Numbers: rounding an exact non-negative mantissa is never NaN *)

Section Rounding.
Import JS.

Lemma shr_1_nonneg mrs : 0 <= shr_m mrs -> 0 <= shr_m (shr_1 mrs).
Proof.
  destruct mrs as [m r s]; simpl.
  destruct m as [|p|p]; simpl; [lia| |lia].
  destruct p; simpl; lia.
Qed.

Lemma iter_shr_1_nonneg p mrs :
  0 <= shr_m mrs -> 0 <= shr_m (SpecFloat.iter_pos shr_1 p mrs).
Proof.
  revert mrs.
  induction p as [p IH|p IH|]; intros mrs H; simpl.
  - apply IH, IH, shr_1_nonneg, H.
  - apply IH, IH, H.
  - apply shr_1_nonneg, H.
Qed.

Lemma shr_fexp_nonneg m e l :
  0 <= m -> 0 <= shr_m (fst (shr_fexp prec emax m e l)).
Proof.
  intros H. unfold shr_fexp, shr.
  assert (0 <= shr_m (shr_record_of_loc m l)) as H0
    by (destruct l as [|[]]; simpl; exact H).
  destruct (fexp prec emax (Zdigits2 m + e) - e); simpl; auto.
  apply iter_shr_1_nonneg, H0.
Qed.

Lemma round_nearest_even_nonneg m l : 0 <= m -> 0 <= round_nearest_even m l.
Proof.
  intros H. destruct l as [|[]]; simpl; try lia.
  destruct (Z.even m); lia.
Qed.

Lemma binary_round_aux_not_nan sx mx ex lx :
  0 <= mx -> isNaN (binary_round_aux prec emax sx mx ex lx) = false.
Proof.
  intros H. unfold binary_round_aux.
  pose proof (shr_fexp_nonneg mx ex lx H) as H1.
  destruct (shr_fexp prec emax mx ex lx) as [mrs' e']. simpl in H1.
  pose proof (shr_fexp_nonneg _ e' loc_Exact
                (round_nearest_even_nonneg _ (loc_of_shr_record mrs') H1)) as H2.
  destruct (shr_fexp prec emax _ e' loc_Exact) as [mrs'' e'']. simpl in H2.
  destruct (shr_m mrs'') as [|p|p]; [reflexivity| |lia].
  destruct (e'' <=? emax - prec); reflexivity.
Qed.

Lemma ten_thousand : of_Z 10000 = S754_finite false 5497558138880000 (-39).
Proof. reflexivity. Qed.

(** A number that is not NaN stays so when multiplied by 10000. *)
Lemma myriad_not_nan x : isNaN x = false -> isNaN (mul x (of_Z 10000)) = false.
Proof.
  rewrite ten_thousand. destruct x as [s|s| |s m e]; intros H; try reflexivity.
  - discriminate H.
  - unfold mul, SFmul. apply binary_round_aux_not_nan. lia.
Qed.

End Rounding.

(** ** parseNumber *)

Section ParseNumber.
Import JS.

Lemma or_zero_not_nan x : isNaN (if isNaN x then zero else x) = false.
Proof. destruct x; reflexivity. Qed.

Lemma myriad_or_zero_not_nan x :
  isNaN (if isNaN x then zero else mul x (of_Z 10000)) = false.
Proof.
  destruct (isNaN x) eqn:E; [reflexivity|]. apply myriad_not_nan, E.
Qed.

Lemma ExcelReader_parseNumber_not_nan s :
  isNaN (ExcelReader.parseNumber (Str s)) = false.
Proof.
  unfold ExcelReader.parseNumber.
  destruct (includes _ _); [apply myriad_or_zero_not_nan | apply or_zero_not_nan].
Qed.

Lemma DataRoute_parseNumber_not_nan s :
  isNaN (DataRoute.parseNumber (Str s)) = false.
Proof.
  unfold DataRoute.parseNumber.
  destruct (includes _ _); [apply myriad_or_zero_not_nan | apply or_zero_not_nan].
Qed.

Lemma YearlyStats_parseNumber_not_nan s :
  isNaN (YearlyStats.parseNumber (Str s)) = false.
Proof.
  unfold YearlyStats.parseNumber.
  destruct (includes _ _); [apply myriad_or_zero_not_nan | apply or_zero_not_nan].
Qed.

(** The library and the per-month route carry the same text of
    [parseNumber]. *)
Lemma DataRoute_parseNumber_eq v :
  DataRoute.parseNumber v = ExcelReader.parseNumber v.
Proof. reflexivity. Qed.

(** Lower-casing creates a ['w'] exactly from a ['w'] or a ['W']. *)
Lemma includes_toLowerCase_w s :
  includes (toLowerCase s) (ch "w")
  = includes s (ch "w") || includes s (ch "W").
Proof.
  unfold includes, toLowerCase.
  induction s as [|c s IH]; [reflexivity|].
  cbn [map existsb]. rewrite IH. clear IH.
  change (ch "w") with 119%N. change (ch "W") with 87%N.
  destruct (N.leb_spec 65 c); destruct (N.leb_spec c 90); cbn [andb];
    destruct (N.eqb_spec 119 c); destruct (N.eqb_spec 87 c);
    destruct (N.eqb_spec 119 (c + 32)); try lia;
    cbn [orb]; try reflexivity;
    destruct (existsb _ s); destruct (existsb _ s); reflexivity.
Qed.

Lemma remove_all_no_marker s :
  includes s (ch "w") = false ->
  includes s (ch "W") = false ->
  remove_all (fun c => N.eqb c (ch "w") || N.eqb c (ch "W")) s = s.
Proof.
  unfold includes, remove_all.
  change (ch "w") with 119%N. change (ch "W") with 87%N.
  induction s as [|d s IH]; [reflexivity|].
  cbn [existsb List.filter]. intros H1 H2.
  apply orb_false_iff in H1 as [H1 H1'], H2 as [H2 H2'].
  rewrite (N.eqb_sym d 119), H1, (N.eqb_sym d 87), H2. cbn [orb negb].
  f_equal. apply IH; assumption.
Qed.

(** With one lower-case marker and no upper-case one, removing the first
    ['w'] and removing every marker give the same text. *)
Lemma remove_first_single_marker s :
  includes (remove_first (ch "w") s) (ch "w") = false ->
  includes s (ch "W") = false ->
  remove_first (ch "w") s
  = remove_all (fun c => N.eqb c (ch "w") || N.eqb c (ch "W")) s.
Proof.
  induction s as [|c s IH]; [reflexivity|].
  unfold remove_all, includes.
  change (ch "w") with 119%N. change (ch "W") with 87%N.
  cbn [remove_first existsb List.filter].
  destruct (N.eqb_spec c 119) as [->|Hc]; cbn [existsb orb negb]; intros H1 H2.
  - apply orb_false_iff in H2 as [_ H2].
    symmetry. apply remove_all_no_marker; assumption.
  - apply orb_false_iff in H1 as [_ H1], H2 as [H2 H2'].
    rewrite (N.eqb_sym c 87), H2. cbn [negb].
    f_equal. apply IH; assumption.
Qed.

End ParseNumber.

Section Normalizer.
Import JS.

(** C1, as amended.  [parseNumber] is total (a function of every value).
    A number is returned unchanged, whatever it is; a string never gives
    NaN, but it may give an infinity; every other value gives 0.  This
    holds for each of the three copies. *)
Theorem parseNumber_total_never_nan :
  (forall n, ExcelReader.parseNumber (Num n) = n
             /\ DataRoute.parseNumber (Num n) = n
             /\ YearlyStats.parseNumber (Num n) = n)
  /\ (forall s, isNaN (ExcelReader.parseNumber (Str s)) = false
                /\ isNaN (DataRoute.parseNumber (Str s)) = false
                /\ isNaN (YearlyStats.parseNumber (Str s)) = false)
  /\ (forall b, ExcelReader.parseNumber (Bool b) = zero
                /\ DataRoute.parseNumber (Bool b) = zero
                /\ YearlyStats.parseNumber (Bool b) = zero)
  /\ ExcelReader.parseNumber Undefined = zero
  /\ DataRoute.parseNumber Undefined = zero
  /\ YearlyStats.parseNumber Undefined = zero
  /\ ExcelReader.parseNumber Null = zero
  /\ DataRoute.parseNumber Null = zero
  /\ YearlyStats.parseNumber Null = zero.
Proof.
  repeat split; try reflexivity.
  - apply ExcelReader_parseNumber_not_nan.
  - apply DataRoute_parseNumber_not_nan.
  - apply YearlyStats_parseNumber_not_nan.
Qed.

(** C1 fails as stated: the text [Infinity] is a string input, and the
    result is not finite. *)
Lemma parseNumber_string_infinite :
  ExcelReader.parseNumber (Str (js "Infinity")) = Infinity
  /\ DataRoute.parseNumber (Str (js "Infinity")) = Infinity
  /\ YearlyStats.parseNumber (Str (js "Infinity")) = Infinity
  /\ isFinite (ExcelReader.parseNumber (Str (js "Infinity"))) = false
  /\ isFinite (ExcelReader.parseNumber (Str (js "1e400"))) = false
  /\ isFinite (ExcelReader.parseNumber (Str (js "1e305w"))) = false.
Proof. repeat split; vm_compute; reflexivity. Qed.

(** The myriad branch of the yearly route's copy: when the cleaned text
    holds the marker in either case, every marker is removed and the parsed
    rest is multiplied by 10000, an unparseable rest giving 0. *)
Lemma YearlyStats_myriad s :
  let cleaned := remove_all (N.eqb (ch "+")) (trim s) in
  includes cleaned (ch "w") || includes cleaned (ch "W") = true ->
  YearlyStats.parseNumber (Str s)
  = let num :=
      parseFloat
        (remove_first (ch "+")
           (remove_all (fun c => N.eqb c (ch "w") || N.eqb c (ch "W")) cleaned)) in
    if isNaN num then zero else mul num (of_Z 10000).
Proof.
  intros cleaned H. unfold YearlyStats.parseNumber. fold cleaned.
  rewrite includes_toLowerCase_w, H. reflexivity.
Qed.

(** The library's copy does the same when the marker is one lower-case
    ['w']. *)
Lemma ExcelReader_myriad_single s :
  let cleaned := remove_all (N.eqb (ch "+")) (trim s) in
  includes cleaned (ch "w") = true ->
  includes (remove_first (ch "w") cleaned) (ch "w") = false ->
  includes cleaned (ch "W") = false ->
  ExcelReader.parseNumber (Str s) = YearlyStats.parseNumber (Str s).
Proof.
  intros cleaned H1 H2 H3.
  rewrite YearlyStats_myriad by (fold cleaned; rewrite H1; reflexivity).
  unfold ExcelReader.parseNumber. fold cleaned. rewrite H1.
  rewrite remove_first_single_marker by assumption. reflexivity.
Qed.

(** Without any marker the three copies take the same plain branch. *)
Lemma ExcelReader_plain s :
  let cleaned := remove_all (N.eqb (ch "+")) (trim s) in
  includes cleaned (ch "w") = false ->
  includes cleaned (ch "W") = false ->
  ExcelReader.parseNumber (Str s) = YearlyStats.parseNumber (Str s).
Proof.
  intros cleaned H1 H2.
  unfold ExcelReader.parseNumber, YearlyStats.parseNumber. fold cleaned.
  rewrite includes_toLowerCase_w, H1, H2. reflexivity.
Qed.

(** C6, at the failing input.  The library's and the per-month route's
    copies look for a lower-case ['w'] only: on the cell [1.5W] they parse
    the text as it is and return 1.5, where the yearly route's copy returns
    15000.  They also remove the first ['w'] only: on [1w.w5] they return
    10000, the yearly route's copy 15000. *)
Theorem parseNumber_upper_case_marker :
  ExcelReader.parseNumber (Str (js "1.5W")) = parseFloat (js "1.5")
  /\ DataRoute.parseNumber (Str (js "1.5W")) = parseFloat (js "1.5")
  /\ YearlyStats.parseNumber (Str (js "1.5W")) = of_Z 15000
  /\ ExcelReader.parseNumber (Str (js "1w.w5")) = of_Z 10000
  /\ DataRoute.parseNumber (Str (js "1w.w5")) = of_Z 10000
  /\ YearlyStats.parseNumber (Str (js "1w.w5")) = of_Z 15000.
Proof. repeat split; vm_compute; reflexivity. Qed.

(** C7, at the failing input.  The library's copy and the per-month
    route's copy agree on every value, but the yearly route's copy differs
    from them: on the cell [2W] they return 2 and it returns 20000. *)
Theorem parseNumber_copies_differ :
  (forall v, DataRoute.parseNumber v = ExcelReader.parseNumber v)
  /\ ExcelReader.parseNumber (Str (js "2W")) = of_Z 2
  /\ DataRoute.parseNumber (Str (js "2W")) = of_Z 2
  /\ YearlyStats.parseNumber (Str (js "2W")) = of_Z 20000.
Proof. repeat split; vm_compute; reflexivity. Qed.

End Normalizer.

(** ** safeGetValue and the display metrics *)

Section Display.
Import JS ExcelReader.

Lemma safeGetValue_returns getter fieldName :
  exists r, safeGetValue getter fieldName = Return r.
Proof.
  unfold safeGetValue, try_catch, mbind, completion_bind.
  destruct (getter tt) as [v|e]; [|eauto].
  destruct v as [| |b|n|s]; eauto.
  destruct (isNaN n || negb (isFinite n)); eauto.
Qed.

(** C4.  [safeGetValue] never throws: it always returns, and what it
    returns is the error object carrying the label when the getter throws
    or produces NaN or a non-finite number, and the computed value
    otherwise. *)
Theorem safeGetValue_tagged (getter : unit -> completion any) (fieldName : jsstring) :
  (exists r, safeGetValue getter fieldName = Return r)
  /\ (forall e, getter tt = Throw e ->
        safeGetValue getter fieldName = Return (Failed (fieldName ++ 数据错误)))
  /\ (forall n, getter tt = Return (Num n) -> isNaN n || negb (isFinite n) = true ->
        safeGetValue getter fieldName = Return (Failed (fieldName ++ 数据错误)))
  /\ (forall v, getter tt = Return v -> fails (getter tt) = false ->
        safeGetValue getter fieldName = Return (Value v)).
Proof.
  split; [apply safeGetValue_returns|].
  unfold safeGetValue, try_catch, mbind, completion_bind, fails. repeat split.
  - intros e ->. reflexivity.
  - intros n -> H. rewrite H. reflexivity.
  - intros v -> H. destruct v as [| |b|n|s]; try reflexivity.
    rewrite H. reflexivity.
Qed.

(** [safeGetValue_tagged] at three getters: one that throws, one that
    produces NaN, and one that produces the text [A]. *)
Lemma safeGetValue_tagged_witness :
  safeGetValue (fun _ => Throw (Str (js "TypeError"))) (js "发文数")
    = Return (Failed (js "发文数数据错误"))
  /\ safeGetValue (fun _ => Return (Num NaN)) (js "发文数")
    = Return (Failed (js "发文数数据错误"))
  /\ safeGetValue (fun _ => Return (Str (js "A"))) (js "账号名称")
    = Return (Value (Str (js "A"))).
Proof.
  split; [|split].
  - exact (proj1 (proj2 (safeGetValue_tagged
             (fun _ => Throw (Str (js "TypeError"))) (js "发文数")))
             (Str (js "TypeError")) eq_refl).
  - exact (proj1 (proj2 (proj2 (safeGetValue_tagged
             (fun _ => Return (Num NaN)) (js "发文数"))))
             NaN eq_refl eq_refl).
  - exact (proj2 (proj2 (proj2 (safeGetValue_tagged
             (fun _ => Return (Str (js "A"))) (js "账号名称"))))
             (Str (js "A")) eq_refl eq_refl).
Defined.

Lemma read_returns account k label : exists r, read account k label = Return r.
Proof. apply safeGetValue_returns. Qed.

Lemma forwardIncrement_eq account previousAccount :
  forwardIncrement account previousAccount
  = Return
      match previousAccount with
      | Some previous =>
          Some (minus (or (prop account 转发总量) (Num zero))
                      (or (prop previous 转发总量) (Num zero)))
      | None => None
      end.
Proof. destruct previousAccount; reflexivity. Qed.

(** C2, as amended.  [getDisplayMetrics] always returns, and the increment
    of the forward total is in one of two states: absent ([null]) when no
    previous account is supplied; otherwise the number
    [(current || 0) - (previous || 0)].  It is not read through
    [safeGetValue], so it is never the error object. *)
Theorem forward_increment_states
    (account : AccountData) (previousAccount : option AccountData) :
  exists d,
    getDisplayMetrics account previousAccount = Return d
    /\ increment (总转发数 d)
       = match previousAccount with
         | Some previous =>
             Some (minus (or (prop account 转发总量) (Num zero))
                         (or (prop previous 转发总量) (Num zero)))
         | None => None
         end.
Proof.
  unfold getDisplayMetrics. rewrite forwardIncrement_eq. cbn [mbind completion_bind].
  destruct (safeGetValue_returns
              (fun _ => Return (or (or (prop account 公众号) (prop account 帐号名))
                                   (Str (js "-"))))
              (js "账号名称")) as [name ->].
  cbn [mbind completion_bind].
  repeat match goal with
         | |- context [read ?a ?k ?l] =>
             let r := fresh "r" in
             destruct (read_returns a k l) as [r ->]; cbn [mbind completion_bind]
         end.
  eexists. split; reflexivity.
Qed.

(** With numbers other than 0 and NaN on both sides, the increment is
    their difference, which may be negative. *)
Lemma forward_increment_difference account previous a b :
  prop account 转发总量 = Num a -> prop previous 转发总量 = Num b ->
  truthy (Num a) = true -> truthy (Num b) = true ->
  forwardIncrement account (Some previous) = Return (Some (sub a b)).
Proof.
  intros Ha Hb Ta Tb. rewrite forwardIncrement_eq, Ha, Hb.
  unfold or. rewrite Ta, Tb. reflexivity.
Qed.

Example forward_increment_negative :
  forwardIncrement (forwards (of_Z 3)) (Some (forwards (of_Z 5)))
  = Return (Some (SFopp (of_Z 2))).
Proof. vm_compute. reflexivity. Qed.

(** C2 fails as stated: with an infinite forward total on both sides each
    read fails by the [safeGetValue] contract, yet the increment is the
    number NaN, not the error object; with NaN on the current side the
    increment is the number -5. *)
Lemma forward_increment_no_error_state :
  read (forwards Infinity) "转发总量" "总转发数"
    = Return (Failed (js "总转发数数据错误"))
  /\ forwardIncrement (forwards Infinity) (Some (forwards Infinity))
     = Return (Some NaN)
  /\ read (forwards NaN) "转发总量" "总转发数"
     = Return (Failed (js "总转发数数据错误"))
  /\ forwardIncrement (forwards NaN) (Some (forwards (of_Z 5)))
     = Return (Some (SFopp (of_Z 5))).
Proof. repeat split; vm_compute; reflexivity. Qed.

(** C10.  [getAccountKey] is a function of the account object and never
    returns [undefined] or [null]; when the two name fields are strings
    (or missing) it returns a string: the [帐号名] field if that is not
    empty, else the [公众号] field if that is not empty, else the empty
    string. *)
Theorem getAccountKey_prefers_alternate (account : AccountData) :
  getAccountKey account <> Undefined
  /\ getAccountKey account <> Null
  /\ (textual (prop account 帐号名) = true ->
      textual (prop account 公众号) = true ->
      getAccountKey account
      = Str match text (prop account 帐号名) with
            | _ :: _ => text (prop account 帐号名)
            | [] => text (prop account 公众号)
            end).
Proof.
  unfold getAccountKey, or.
  destruct (prop account 帐号名) as [| |[]|[]|[]];
    destruct (prop account 公众号) as [| |[]|[]|[]]; cbn;
    repeat split; try discriminate; reflexivity.
Qed.

(** [getAccountKey_prefers_alternate] on an account with both names, and
    on one whose [帐号名] is empty. *)
Lemma getAccountKey_prefers_alternate_witness :
  getAccountKey (names "b2" "B") = Str (js "b2")
  /\ getAccountKey (names "" "A") = Str (js "A").
Proof.
  split.
  - exact (proj2 (proj2 (getAccountKey_prefers_alternate (names "b2" "B")))
             eq_refl eq_refl).
  - exact (proj2 (proj2 (getAccountKey_prefers_alternate (names "" "A")))
             eq_refl eq_refl).
Defined.

End Display.

(** ** Building the accounts of a sheet *)

Section Builder.
Import JS ExcelReader.

Variable numberToString : number -> jsstring.

(** The per-month route carries the same text of the filter and of the
    map callback as the library. *)
Lemma DataRoute_kept_eq row : DataRoute.kept row = kept row.
Proof. reflexivity. Qed.

Lemma DataRoute_toAccount_eq headers row :
  DataRoute.toAccount numberToString headers row
  = toAccount numberToString headers row.
Proof. reflexivity. Qed.

Lemma toAccount_snoc headers header row :
  toAccount numberToString (headers ++ [header]) row
  = assign (toAccount numberToString headers row)
           (property_key numberToString header)
           (field numberToString header (at_index row (length headers))).
Proof.
  unfold toAccount. rewrite imap_app, fold_left_app. cbn.
  rewrite Nat.add_0_r. reflexivity.
Qed.

Lemma lookup_assign_eq (account : AccountData) key v :
  key <> js "__proto__" -> assign account key v !! key = Some v.
Proof.
  intros H. unfold assign. rewrite bool_decide_eq_false_2 by exact H.
  apply lookup_insert_eq.
Qed.

Lemma lookup_assign_ne (account : AccountData) key key' v :
  key <> key' -> assign account key v !! key' = account !! key'.
Proof.
  intros H. unfold assign. destruct (bool_decide _); [reflexivity|].
  apply lookup_insert_ne, H.
Qed.

Lemma toAccount_last_occurrence headers row i header :
  headers !! i = Some header ->
  (forall j h, (i < j)%nat -> headers !! j = Some h ->
     property_key numberToString h <> property_key numberToString header) ->
  property_key numberToString header <> js "__proto__" ->
  toAccount numberToString headers row !! property_key numberToString header
  = Some (field numberToString header (at_index row i)).
Proof.
  induction headers as [|h headers IH] using rev_ind; intros Hi Hlast Hkey.
  - discriminate Hi.
  - rewrite toAccount_snoc.
    destruct (decide (i = length headers)) as [->|Hne].
    + rewrite lookup_app_r, Nat.sub_diag in Hi by lia.
      injection Hi as ->. apply lookup_assign_eq, Hkey.
    + assert (i < length headers)%nat as Hlt.
      { apply lookup_lt_Some in Hi. rewrite length_app in Hi. cbn in Hi. lia. }
      rewrite lookup_app_l in Hi by exact Hlt.
      rewrite lookup_assign_ne.
      * apply IH; [exact Hi| |exact Hkey].
        intros j h' Hj Hh'. apply (Hlast j h' Hj).
        rewrite lookup_app_l; [exact Hh'|]. apply lookup_lt_Some in Hh'. exact Hh'.
      * apply (Hlast (length headers) h Hlt).
        rewrite lookup_app_r, Nat.sub_diag by lia. reflexivity.
Qed.

End Builder.

Section Duplicates.
Import JS.

(** C8, as amended.  When a field name stands at several positions of the
    header, the account holds under that name the value of the cell at its
    last position (the reserved key [__proto__] apart, which an assignment
    never creates).  The same holds in the per-month route. *)
Theorem last_duplicate_wins
    (numberToString : number -> jsstring) (headers row : list any)
    (i : nat) (header : any) :
  headers !! i = Some header ->
  (forall j h, (i < j)%nat -> headers !! j = Some h ->
     property_key numberToString h <> property_key numberToString header) ->
  property_key numberToString header <> js "__proto__" ->
  ExcelReader.toAccount numberToString headers row
    !! property_key numberToString header
  = Some (ExcelReader.field numberToString header (at_index row i))
  /\ DataRoute.toAccount numberToString headers row
       !! property_key numberToString header
     = Some (DataRoute.field numberToString header (at_index row i)).
Proof.
  intros Hi Hlast Hkey. split.
  - apply toAccount_last_occurrence; assumption.
  - rewrite DataRoute_toAccount_eq.
    apply toAccount_last_occurrence; assumption.
Qed.

Lemma duplicated_last numberToString j h :
  (2 < j)%nat -> duplicated !! j = Some h ->
  property_key numberToString h <> js "阅读总数".
Proof.
  intros Hj Hh. apply lookup_lt_Some in Hh. cbn in Hh. lia.
Qed.

(** [last_duplicate_wins] on a header that names [阅读总数] at positions 1
    and 2, and a row holding 1 and 2 there: the account holds 2. *)
Lemma last_duplicate_wins_witness :
  ExcelReader.toAccount not_called duplicated duplicated_row
    !! js "阅读总数" = Some (Num (of_Z 2))
  /\ DataRoute.toAccount not_called duplicated duplicated_row
       !! js "阅读总数" = Some (Num (of_Z 2)).
Proof.
  exact (last_duplicate_wins not_called duplicated duplicated_row 2
           (Str (js "阅读总数")) eq_refl
           (duplicated_last not_called)
           ltac:(discriminate)).
Defined.

(** C8 fails as stated: the first occurrence of [阅读总数] holds 1, the
    account built by the library and by the per-month route holds 2. *)
Lemma first_duplicate_lost :
  at_index duplicated 1 = at_index duplicated 2
  /\ ExcelReader.parseNumber (at_index duplicated_row 1) = of_Z 1
  /\ (forall numberToString,
        ExcelReader.toAccount numberToString duplicated duplicated_row
          !! js "阅读总数" = Some (Num (of_Z 2)))
  /\ (forall numberToString,
        DataRoute.toAccount numberToString duplicated duplicated_row
          !! js "阅读总数" = Some (Num (of_Z 2))).
Proof. repeat split; intros; vm_compute; reflexivity. Qed.

End Duplicates.

(** ** Which rows become accounts *)

Section Inclusion.
Import JS ExcelReader.

Lemma blank_falsy v : textual v = true -> truthy v = negb (blank v).
Proof. destruct v as [| |b|n|[|c s]]; try discriminate; reflexivity. Qed.

Lemma cell_of_standard headers row :
  headers !! 0%nat = Some (Str 公众号) ->
  headers !! 1%nat = Some (Str 帐号名) ->
  cell_of headers row 公众号 = at_index row 0
  /\ cell_of headers row 帐号名 = at_index row 1.
Proof.
  destruct headers as [|h0 [|h1 headers]]; try discriminate.
  intros [= ->] [= ->]. split; reflexivity.
Qed.

(** A row is kept exactly when one of its first two cells is truthy. *)
Lemma kept_first_two_cells row :
  kept row = truthy (at_index row 0) || truthy (at_index row 1).
Proof.
  unfold kept, or. destruct (truthy (at_index row 0)) eqn:E; [exact E|].
  reflexivity.
Qed.

(** C3, as amended.  When the header names [公众号] and [帐号名] in its
    first two positions and the two name cells of every row of the sheet
    are texts (or missing), a row is dropped if and only if both its name
    cells are empty, and whether it is kept does not depend on its other
    cells; the snapshot that the library and the per-month route build
    from the sheet holds, in the order of the rows, one account for each
    row with a name cell that is not empty, and nothing else. *)
Theorem dropped_iff_both_names_empty
    (numberToString : number -> jsstring) (headers : list any)
    (dataRows : list (list any)) :
  headers !! 0%nat = Some (Str 公众号) ->
  headers !! 1%nat = Some (Str 帐号名) ->
  dataRows <> [] ->
  Forall (fun row => textual (cell_of headers row 公众号) = true
                     /\ textual (cell_of headers row 帐号名) = true) dataRows ->
  (forall row, In row dataRows ->
     (kept row = false
      <-> blank (cell_of headers row 公众号) = true
          /\ blank (cell_of headers row 帐号名) = true))
  /\ (forall row row',
        cell_of headers row' 公众号 = cell_of headers row 公众号 ->
        cell_of headers row' 帐号名 = cell_of headers row 帐号名 ->
        kept row' = kept row)
  /\ readExcelFile numberToString (headers :: dataRows)
     = Return (map (toAccount numberToString headers)
                   (List.filter (named headers) dataRows))
  /\ DataRoute.GET numberToString (headers :: dataRows)
     = DataRoute.Data
         (map (DataRoute.toAccount numberToString headers)
              (List.filter (named headers) dataRows)).
Proof.
  intros H0 H1 Hne Ht. rewrite List.Forall_forall in Ht.
  assert (forall row, In row dataRows -> kept row = named headers row) as Hk.
  { intros row Hin. destruct (Ht row Hin) as [T0 T1]. unfold named.
    destruct (cell_of_standard headers row H0 H1) as [E0 E1].
    rewrite E0, E1 in *.
    rewrite kept_first_two_cells, (blank_falsy _ T0), (blank_falsy _ T1).
    destruct (blank (at_index row 0)); destruct (blank (at_index row 1));
      reflexivity. }
  split; [|split; [|split]].
  - intros row Hin. rewrite (Hk row Hin). unfold named.
    rewrite negb_false_iff, andb_true_iff. reflexivity.
  - intros row row'.
    destruct (cell_of_standard headers row H0 H1) as [-> ->].
    destruct (cell_of_standard headers row' H0 H1) as [-> ->].
    intros E0 E1. rewrite !kept_first_two_cells, E0, E1. reflexivity.
  - destruct dataRows as [|row dataRows]; [contradiction|].
    unfold readExcelFile, accounts.
    rewrite (List.filter_ext_in _ _ _ Hk). reflexivity.
  - destruct dataRows as [|row dataRows]; [contradiction|].
    destruct headers as [|h headers]; [discriminate H0|].
    unfold DataRoute.GET.
    rewrite (List.filter_ext_in DataRoute.kept (named (h :: headers)) (row :: dataRows)).
    + reflexivity.
    + intros r Hr. rewrite DataRoute_kept_eq. apply Hk, Hr.
Qed.

(** [dropped_iff_both_names_empty] on a sheet of three rows under the
    header [公众号, 帐号名, 阅读总数]: the row of three empty cells is
    dropped, and the snapshot holds the accounts of the other two rows. *)
Lemma dropped_iff_both_names_empty_witness :
  kept [Str []; Str []; Str []] = false
  /\ readExcelFile not_called
       [ standard;
         [Str (js "A"); Str []; Str (js "1.2w")];
         [Str []; Str []; Str []];
         [Str (js "B"); Str (js "b2"); Str (js "300+")] ]
     = Return
         (map (toAccount not_called standard)
              [ [Str (js "A"); Str []; Str (js "1.2w")];
                [Str (js "B"); Str (js "b2"); Str (js "300+")] ])
  /\ DataRoute.GET not_called
       [ standard;
         [Str (js "A"); Str []; Str (js "1.2w")];
         [Str []; Str []; Str []];
         [Str (js "B"); Str (js "b2"); Str (js "300+")] ]
     = DataRoute.Data
         (map (DataRoute.toAccount not_called standard)
              [ [Str (js "A"); Str []; Str (js "1.2w")];
                [Str (js "B"); Str (js "b2"); Str (js "300+")] ]).
Proof.
  pose proof (dropped_iff_both_names_empty not_called standard
                [ [Str (js "A"); Str []; Str (js "1.2w")];
                  [Str []; Str []; Str []];
                  [Str (js "B"); Str (js "b2"); Str (js "300+")] ]
                eq_refl eq_refl ltac:(discriminate)
                ltac:(repeat constructor)) as (Hrow & _ & Hlib & Hroute).
  split; [|split].
  - apply (Hrow [Str []; Str []; Str []]).
    + right. left. reflexivity.
    + split; reflexivity.
  - exact Hlib.
  - exact Hroute.
Defined.

(** C3 fails as stated, in both directions, on a header that names
    [阅读总数] first: a row with both name cells empty is kept and becomes
    an account, and a row with a name is dropped.  On the usual header a
    row whose [公众号] cell holds the number 0 is dropped as well. *)
Lemma kept_by_position_not_by_name :
  blank (cell_of reads_first [Str (js "5"); Str []; Str []] 公众号) = true
  /\ blank (cell_of reads_first [Str (js "5"); Str []; Str []] 帐号名) = true
  /\ kept [Str (js "5"); Str []; Str []] = true
  /\ (forall numberToString,
        length (accounts numberToString reads_first [[Str (js "5"); Str []; Str []]])
        = 1%nat)
  /\ blank (cell_of reads_first [Str []; Str []; Str (js "A")] 帐号名) = false
  /\ kept [Str []; Str []; Str (js "A")] = false
  /\ (forall numberToString,
        accounts numberToString reads_first [[Str []; Str []; Str (js "A")]] = [])
  /\ blank (cell_of standard [Num zero; Str []; Str (js "9")] 公众号) = false
  /\ kept [Num zero; Str []; Str (js "9")] = false.
Proof. repeat split. Qed.

(** The example of the design: two of three rows become accounts. *)
Example accounts_of_three_rows numberToString :
  accounts numberToString standard
    [ [Str (js "A"); Str []; Str (js "1.2w")];
      [Str []; Str []; Str []];
      [Str (js "B"); Str (js "b2"); Str (js "300+")] ]
  = [ <[公众号 := Str (js "A")]>
        (<[帐号名 := Str []]> {[ js "阅读总数" := Num (of_Z 12000) ]});
      <[公众号 := Str (js "B")]>
        (<[帐号名 := Str (js "b2")]> {[ js "阅读总数" := Num (of_Z 300) ]}) ].
Proof. vm_compute. reflexivity. Qed.

End Inclusion.

(** ** The yearly aggregation *)

Section Yearly.
Import JS YearlyStats.

Variable numberToString : number -> jsstring.

Lemma series_sum_snoc metric series d :
  series_sum metric (series ++ [d]) = add (series_sum metric series) (metric d).
Proof. unfold series_sum. rewrite fold_left_app. reflexivity. Qed.

Lemma record_balanced stats monthData :
  balanced stats -> balanced (record stats monthData).
Proof.
  intros (H1 & H2 & H3). unfold balanced, record. cbn -[series_sum].
  rewrite !series_sum_snoc, H1, H2, H3. repeat split.
Qed.

Lemma sound_weaken (from from' : jsstring -> MonthlyData -> Prop) statsMap :
  (forall name d, from name d -> from' name d) ->
  sound from statsMap -> sound from' statsMap.
Proof.
  intros Hsub H name stats Hl. destruct (H name stats Hl) as (Hn & Hb & Hf).
  split; [exact Hn|]. split; [exact Hb|].
  eapply Forall_impl; [exact Hf|]. intros d. apply Hsub.
Qed.

Lemma visitRow_sound from month idx i1 i2 i3 statsMap row :
  sound from statsMap ->
  (forall name, names_account numberToString idx name row = true ->
     from name {| month := month;
                  阅读总数 := column row i1;
                  头条文章阅读量 := column row i2;
                  转发总量 := column row i3 |}) ->
  sound from (visitRow numberToString month idx i1 i2 i3 statsMap row).
Proof.
  intros Hs Hrow. unfold visitRow.
  destruct (truthy (at_found row idx)) eqn:Ht; cbn [negb]; [|exact Hs].
  destruct (nameOf numberToString row idx) as [accountName|] eqn:Hn; [|exact Hs].
  destruct (bool_decide _); [|exact Hs].
  destruct (statsMap !! accountName) as [stats|] eqn:Hl; [|exact Hs].
  intros name stats' Hl'.
  destruct (decide (accountName = name)) as [<-|Hne].
  - rewrite lookup_insert_eq in Hl'. injection Hl' as <-.
    destruct (Hs _ _ Hl) as (Hname & Hb & Hf).
    split; [exact Hname|]. split; [apply record_balanced, Hb|].
    cbn. apply Forall_app. split; [exact Hf|].
    constructor; [|constructor].
    apply Hrow. unfold names_account. rewrite Ht, Hn.
    rewrite bool_decide_eq_true_2 by reflexivity. reflexivity.
  - rewrite lookup_insert_ne in Hl' by exact Hne. exact (Hs _ _ Hl').
Qed.

Lemma visitRow_tracked month idx i1 i2 i3 statsMap row :
  tracked statsMap ->
  tracked (visitRow numberToString month idx i1 i2 i3 statsMap row).
Proof.
  intros Ht. unfold visitRow.
  destruct (negb _); [exact Ht|].
  destruct (nameOf _ _ _) as [accountName|]; [|exact Ht].
  destruct (bool_decide _); [|exact Ht].
  destruct (statsMap !! accountName) as [stats|] eqn:Hl; [|exact Ht].
  intros name Hin. destruct (decide (accountName = name)) as [<-|Hne].
  - rewrite lookup_insert_eq. eauto.
  - rewrite lookup_insert_ne by exact Hne. apply Ht, Hin.
Qed.

Lemma visitRows_sound from month idx i1 i2 i3 dataRows statsMap :
  sound from statsMap ->
  (forall row name, In row dataRows -> names_account numberToString idx name row = true ->
     from name {| month := month;
                  阅读总数 := column row i1;
                  头条文章阅读量 := column row i2;
                  转发总量 := column row i3 |}) ->
  sound from (fold_left (visitRow numberToString month idx i1 i2 i3) dataRows statsMap).
Proof.
  revert statsMap. induction dataRows as [|row dataRows IH]; intros statsMap Hs Hrows.
  - exact Hs.
  - cbn [fold_left]. apply IH.
    + apply visitRow_sound; [exact Hs|]. intros name. apply Hrows. left. reflexivity.
    + intros r name Hin. apply Hrows. right. exact Hin.
Qed.

Lemma visitRows_tracked month idx i1 i2 i3 dataRows statsMap :
  tracked statsMap ->
  tracked (fold_left (visitRow numberToString month idx i1 i2 i3) dataRows statsMap).
Proof.
  revert statsMap. induction dataRows as [|row dataRows IH]; intros statsMap Ht.
  - exact Ht.
  - cbn [fold_left]. apply IH, visitRow_tracked, Ht.
Qed.

Lemma visitMonth_eq statsMap mo f :
  visitMonth numberToString statsMap (mo, f)
  = match f with
    | Unlistable => Throw (Str (js "ENOENT"))
    | Sheet (headers :: ((_ :: _) as dataRows)) =>
        Return
          (fold_left
             (visitRow numberToString mo
                (findIndex
                   (fun h => is_string h (js "公众号") || is_string h (js "帐号名"))
                   headers)
                (findIndex (fun h => is_string h (js "阅读总数")) headers)
                (findIndex (fun h => is_string h (js "头条文章阅读量")) headers)
                (findIndex (fun h => is_string h (js "转发总量")) headers))
             dataRows statsMap)
    | _ => Return statsMap
    end.
Proof. destruct f as [| |e| |[|headers [|row dataRows]]]; reflexivity. Qed.

Lemma visitMonth_sound months statsMap m statsMap' :
  sound (from_months numberToString months) statsMap ->
  visitMonth numberToString statsMap m = Return statsMap' ->
  sound (from_months numberToString (months ++ [m])) statsMap'.
Proof.
  intros Hs Hv.
  assert (sound (from_months numberToString (months ++ [m])) statsMap) as Hs'.
  { eapply sound_weaken; [|exact Hs]. intros name d (f & Hin & Hf).
    exists f. split; [|exact Hf]. apply in_or_app. left. exact Hin. }
  destruct m as [mo f]. rewrite visitMonth_eq in Hv.
  destruct f as [| |e| |[|headers [|row dataRows]]];
    try discriminate Hv; try (injection Hv as <-; exact Hs').
  injection Hv as <-.
  apply (visitRows_sound _ _ _ _ _ _ (row :: dataRows) statsMap); [exact Hs'|].
  intros r name Hin Hr.
  exists (Sheet (headers :: row :: dataRows)). split.
  - apply in_or_app. right. left. reflexivity.
  - cbn [has_record]. apply existsb_exists. exists r. split; [exact Hin|exact Hr].
Qed.

Lemma visitMonth_tracked statsMap m statsMap' :
  tracked statsMap ->
  visitMonth numberToString statsMap m = Return statsMap' ->
  tracked statsMap'.
Proof.
  intros Ht Hv. destruct m as [mo f]. rewrite visitMonth_eq in Hv.
  destruct f as [| |e| |[|headers [|row dataRows]]];
    try discriminate Hv; try (injection Hv as <-; exact Ht).
  injection Hv as <-.
  apply (visitRows_tracked _ _ _ _ _ (row :: dataRows) statsMap), Ht.
Qed.

Lemma visitMonths_sound done months statsMap statsMap' :
  sound (from_months numberToString done) statsMap ->
  visitMonths numberToString months statsMap = Return statsMap' ->
  sound (from_months numberToString (done ++ months)) statsMap'.
Proof.
  revert done statsMap.
  induction months as [|m months IH]; intros done statsMap Hs Hv.
  - injection Hv as <-. rewrite app_nil_r. exact Hs.
  - cbn in Hv. destruct (visitMonth numberToString statsMap m) as [s1|e] eqn:Hm;
      [|discriminate Hv].
    cbn in Hv. replace (done ++ m :: months) with ((done ++ [m]) ++ months)
      by (rewrite <- app_assoc; reflexivity).
    apply (IH _ s1); [|exact Hv].
    eapply visitMonth_sound; [exact Hs|exact Hm].
Qed.

Lemma visitMonths_tracked months statsMap statsMap' :
  tracked statsMap ->
  visitMonths numberToString months statsMap = Return statsMap' ->
  tracked statsMap'.
Proof.
  revert statsMap. induction months as [|m months IH]; intros statsMap Ht Hv.
  - injection Hv as <-. exact Ht.
  - cbn in Hv. destruct (visitMonth numberToString statsMap m) as [s1|e] eqn:Hm;
      [|discriminate Hv].
    cbn in Hv. apply (IH s1); [|exact Hv].
    eapply visitMonth_tracked; [exact Ht|exact Hm].
Qed.

Lemma initial_sound : sound (from_months numberToString []) initial.
Proof.
  intros name stats. unfold initial, TARGET_ACCOUNTS. cbn [fold_left].
  intros H.
  repeat (apply lookup_insert_Some in H as [[<- <-]|[_ H]];
          [split; [reflexivity|split; [repeat split|constructor]]|]).
  rewrite lookup_empty in H. discriminate H.
Qed.

Lemma initial_tracked : tracked initial.
Proof.
  intros name Hin. unfold initial, TARGET_ACCOUNTS in *. cbn [fold_left].
  repeat (apply elem_of_cons in Hin as [->|Hin];
          [rewrite ?lookup_insert_eq, ?lookup_insert_ne by discriminate; eauto|]).
  apply elem_of_nil in Hin. contradiction.
Qed.



End Yearly.

Section Aggregation.
Import JS YearlyStats.

Lemma lookup_map {A B} (f : A -> B) (l : list A) (i : nat) :
  map f l !! i = option_map f (l !! i).
Proof.
  revert i. induction l as [|a l IH]; intros [|i]; try reflexivity. apply IH.
Qed.

Lemma GET_eq numberToString months :
  GET numberToString months
  = match visitMonths numberToString months initial with
    | Return statsMap =>
        Stats (map (fun name => statsMap !! name) TARGET_ACCOUNTS) (map fst months)
    | Throw _ => ServerError 500
    end.
Proof.
  unfold GET. destruct (visitMonths numberToString months initial); reflexivity.
Qed.

(** The route answers with the statistics whenever every month folder can
    be listed. *)
Lemma visitMonths_returns numberToString months statsMap :
  Forall (fun m => m.2 <> Unlistable) months ->
  exists statsMap', visitMonths numberToString months statsMap = Return statsMap'.
Proof.
  intros H. revert statsMap.
  induction H as [|[mo f] months Hf _ IH]; intros statsMap; [cbn; eauto|].
  cbn [visitMonths]. rewrite visitMonth_eq.
  destruct f as [| |e| |[|headers [|row dataRows]]];
    try (exfalso; apply Hf; reflexivity); cbn [mbind completion_bind]; apply IH.
Qed.

Lemma GET_answers numberToString months :
  Forall (fun m => m.2 <> Unlistable) months ->
  exists data, GET numberToString months = Stats data (map fst months).
Proof.
  intros H. rewrite GET_eq.
  destruct (visitMonths_returns numberToString months initial H) as [statsMap ->].
  eauto.
Qed.

(** C5.  When the yearly route answers, it answers with one entry per
    tracked account, in the order of [TARGET_ACCOUNTS]; for each of the
    three metrics the sum over the entry's series is the entry's total;
    and every item of the series comes from a month folder that holds a
    record of that account, so that a month without one appears nowhere in
    the series and adds nothing to the total. *)
Theorem series_sums_to_total
    (numberToString : number -> jsstring) (months : list (jsstring * folder))
    (data : list (option AccountYearlyStats)) (listed : list jsstring) :
  GET numberToString months = Stats data listed ->
  forall i name, TARGET_ACCOUNTS !! i = Some name ->
    exists stats,
      data !! i = Some (Some stats)
      /\ accountName stats = name
      /\ series_sum 阅读总数 (monthlyData stats) = total_阅读总数 (total stats)
      /\ series_sum 头条文章阅读量 (monthlyData stats) = total_头条文章阅读量 (total stats)
      /\ series_sum 转发总量 (monthlyData stats) = total_转发总量 (total stats)
      /\ forall d, In d (monthlyData stats) ->
           exists f, In (month d, f) months
                     /\ has_record numberToString name f = true.
Proof.
  intros H i name Hi. rewrite GET_eq in H.
  destruct (visitMonths numberToString months initial) as [statsMap|e] eqn:Hv;
    [|discriminate H].
  assert (data = map (fun name => statsMap !! name) TARGET_ACCOUNTS) as ->
    by congruence.
  clear H.
  pose proof (visitMonths_sound numberToString [] months initial statsMap
                (initial_sound numberToString) Hv) as Hs.
  pose proof (visitMonths_tracked numberToString months initial statsMap
                initial_tracked Hv) as Ht.
  assert (name ∈ TARGET_ACCOUNTS) as Hin by (eapply list_elem_of_lookup_2, Hi).
  destruct (Ht name Hin) as [stats Hl].
  destruct (Hs name stats Hl) as (Hn & (H1 & H2 & H3) & Hf).
  exists stats. split.
  - rewrite lookup_map, Hi. cbn [option_map]. rewrite Hl. reflexivity.
  - repeat (split; [assumption|]).
    intros d Hd. rewrite Forall_forall in Hf. apply Hf.
    apply list_elem_of_In. exact Hd.
Qed.

(** [series_sums_to_total] on three months, the second unreadable and the
    third without a record of the third account. *)
Lemma series_sums_to_total_witness :
  exists data listed,
    GET not_called [january; february; march] = Stats data listed
    /\ forall i name, TARGET_ACCOUNTS !! i = Some name ->
         exists stats,
           data !! i = Some (Some stats)
           /\ accountName stats = name
           /\ series_sum 阅读总数 (monthlyData stats) = total_阅读总数 (total stats)
           /\ series_sum 头条文章阅读量 (monthlyData stats)
              = total_头条文章阅读量 (total stats)
           /\ series_sum 转发总量 (monthlyData stats) = total_转发总量 (total stats)
           /\ forall d, In d (monthlyData stats) ->
                exists f, In (month d, f) [january; february; march]
                          /\ has_record not_called name f = true.
Proof.
  eexists. eexists. split; [vm_compute; reflexivity|].
  eapply (series_sums_to_total not_called [january; february; march]).
  vm_compute. reflexivity.
Defined.

Example yearly_totals :
  match GET not_called [january; february; march] with
  | Stats [Some a; Some b; Some c] listed =>
      total_阅读总数 (total a) = of_Z 17000
      /\ total_转发总量 (total a) = of_Z 37
      /\ map month (monthlyData a) = [js "202501"; js "202503"]
      /\ monthlyData b = []
      /\ total_阅读总数 (total c) = of_Z 8000
      /\ map month (monthlyData c) = [js "202501"]
      /\ listed = [js "202501"; js "202502"; js "202503"]
  | _ => False
  end.
Proof. vm_compute. repeat split. Qed.

(** A month folder that cannot be listed is not such a failure: the
    listing stands outside the [try] block, and the route answers with
    status 500. *)
Example unlistable_month_fails numberToString :
  GET numberToString [january; (js "202502", Unlistable); march] = ServerError 500.
Proof. reflexivity. Qed.

End Aggregation.

(** * Further properties *)

(** ** Sorting *)

Section Sorting.
Import JS.
Context {A : Type} (before : A -> A -> bool).

Lemma place_Permutation x l : place before x l ≡ₚ x :: l.
Proof.
  induction l as [|y l IH]; cbn; [reflexivity|].
  destruct (before x y); [reflexivity|].
  rewrite IH. apply perm_swap.
Qed.

Lemma sort_by_Permutation l : sort_by before l ≡ₚ l.
Proof.
  induction l as [|x l IH]; cbn; [reflexivity|].
  rewrite place_Permutation, IH. reflexivity.
Qed.

Lemma sort_by_In x l : In x (sort_by before l) <-> In x l.
Proof.
  split; apply Permutation_in; [|symmetry]; apply sort_by_Permutation.
Qed.

Hypothesis before_total : forall x y, before x y = false -> before y x = true.
Hypothesis before_trans :
  forall x y z, before x y = true -> before y z = true -> before x z = true.

Lemma place_sorted x l :
  StronglySorted (fun a b => before a b = true) l ->
  StronglySorted (fun a b => before a b = true) (place before x l).
Proof.
  induction 1 as [|y l Hl IH Hy]; cbn.
  - repeat constructor.
  - destruct (before x y) eqn:E.
    + constructor; [constructor; assumption|].
      constructor; [exact E|].
      eapply Forall_impl; [exact Hy|]. intros z Hz. cbn in *.
      eapply before_trans; eassumption.
    + constructor; [exact IH|].
      rewrite place_Permutation. constructor; [|exact Hy].
      apply before_total, E.
Qed.

Lemma sort_by_sorted l :
  StronglySorted (fun a b => before a b = true) (sort_by before l).
Proof.
  induction l as [|x l IH]; cbn; [constructor|]. apply place_sorted, IH.
Qed.

End Sorting.

Lemma sorted_weaken {A} (R S : A -> A -> Prop) l :
  (forall a b, R a b -> S a b) -> StronglySorted R l -> StronglySorted S l.
Proof.
  intros H. induction 1 as [|x l Hl IH Hx]; constructor; [exact IH|].
  eapply Forall_impl; [exact Hx|]. intros b. apply H.
Qed.

(** A list that is in order already is left as it is. *)
Lemma sort_by_fixed {A} (before : A -> A -> bool) l :
  Sorted (fun a b => before a b = true) l -> JS.sort_by before l = l.
Proof.
  unfold JS.sort_by.
  induction 1 as [|x l Hl IH Hx]; cbn [fold_right]; [reflexivity|].
  rewrite IH. destruct Hx as [|y l Hxy]; cbn; [reflexivity|].
  rewrite Hxy. reflexivity.
Qed.

(** Sorting pairs by their names sorts the names. *)
Lemma sort_by_fst {B} (before : list N -> list N -> bool) (l : list (list N * B)) :
  map fst (JS.sort_by (fun a b => before a.1 b.1) l)
  = JS.sort_by before (map fst l).
Proof.
  unfold JS.sort_by.
  induction l as [|x l IH]; cbn [fold_right map]; [reflexivity|].
  rewrite <- IH. generalize (fold_right (JS.place (fun a b => before a.1 b.1)) [] l).
  intros k. induction k as [|y k IHk]; cbn; [reflexivity|].
  destruct (before x.1 y.1); cbn; [reflexivity|]. rewrite IHk. reflexivity.
Qed.

(** ** The order of strings *)

Section StringOrder.
Import JS.

Lemma str_lt_irrefl a : str_lt a a = false.
Proof.
  induction a as [|x a IH]; cbn; [reflexivity|].
  rewrite N.ltb_irrefl, N.eqb_refl. exact IH.
Qed.

Lemma str_lt_trans a b c :
  str_lt a b = true -> str_lt b c = true -> str_lt a c = true.
Proof.
  revert b c. induction a as [|x a IH]; intros [|y b] [|z c]; cbn;
    try discriminate; try reflexivity.
  destruct (N.ltb_spec x y), (N.ltb_spec y z), (N.ltb_spec x z);
    destruct (N.eqb_spec x y), (N.eqb_spec y z), (N.eqb_spec x z);
    try discriminate; try reflexivity; try lia.
  apply IH.
Qed.

Lemma str_lt_total a b : str_lt a b = false -> str_lt b a = false -> a = b.
Proof.
  revert b. induction a as [|x a IH]; intros [|y b]; cbn;
    try discriminate; try reflexivity.
  destruct (N.ltb_spec x y), (N.ltb_spec y x);
    destruct (N.eqb_spec x y), (N.eqb_spec y x);
    try discriminate; try lia.
  intros H1 H2. subst y. f_equal. apply IH; assumption.
Qed.

Lemma str_lt_asym a b : str_lt a b = true -> str_lt b a = false.
Proof.
  intros H. destruct (str_lt b a) eqn:E; [|reflexivity].
  rewrite <- (str_lt_irrefl a). symmetry. eapply str_lt_trans; eassumption.
Qed.

Lemma str_le_total a b : str_le a b = false -> str_le b a = true.
Proof.
  unfold str_le. intros H. apply negb_false_iff in H.
  rewrite (str_lt_asym _ _ H). reflexivity.
Qed.

Lemma str_le_trans a b c :
  str_le a b = true -> str_le b c = true -> str_le a c = true.
Proof.
  unfold str_le. rewrite !negb_true_iff. intros H1 H2.
  destruct (str_lt c a) eqn:E; [|reflexivity].
  destruct (str_lt a b) eqn:Eab.
  - rewrite <- H2. symmetry. eapply str_lt_trans; eassumption.
  - rewrite (str_lt_total a b Eab H1) in E. congruence.
Qed.

Lemma digits_value_from acc ds :
  fold_left (fun a d => 10 * a + Z.of_N (d - ch "0")) ds acc
  = acc * 10 ^ Z.of_nat (length ds) + digits_value ds.
Proof.
  unfold digits_value. revert acc.
  induction ds as [|d ds IH]; intros acc; cbn [fold_left length].
  - cbn. lia.
  - rewrite IH, (IH (10 * 0 + _)). rewrite Nat2Z.inj_succ, Z.pow_succ_r by lia. lia.
Qed.

Lemma digits_value_cons d ds :
  digits_value (d :: ds)
  = Z.of_N (d - ch "0") * 10 ^ Z.of_nat (length ds) + digits_value ds.
Proof.
  unfold digits_value at 1. cbn [fold_left]. rewrite digits_value_from. lia.
Qed.

Lemma digit_bounds d : is_digit d = true -> 0 <= Z.of_N (d - ch "0") <= 9.
Proof.
  unfold is_digit. change (ch "0") with 48%N. change (ch "9") with 57%N.
  intros H. apply andb_true_iff in H as [H1 H2].
  apply N.leb_le in H1, H2. lia.
Qed.

Lemma digits_value_bounds ds :
  forallb is_digit ds = true -> 0 <= digits_value ds < 10 ^ Z.of_nat (length ds).
Proof.
  induction ds as [|d ds IH]; intros H.
  - cbn. lia.
  - cbn [forallb] in H. apply andb_true_iff in H as [Hd Hds].
    rewrite digits_value_cons. specialize (IH Hds). pose proof (digit_bounds d Hd).
    cbn [length]. rewrite Nat2Z.inj_succ, Z.pow_succ_r by lia. nia.
Qed.

(** On texts of digits of one length, the order of strings is the order
    of their values. *)
Lemma str_lt_digits a b :
  length a = length b ->
  forallb is_digit a = true -> forallb is_digit b = true ->
  str_lt a b = true -> digits_value a < digits_value b.
Proof.
  revert b. induction a as [|x a IH]; intros [|y b] Hlen Ha Hb; try discriminate.
  cbn [forallb] in Ha, Hb.
  apply andb_true_iff in Ha as [Hx Ha], Hb as [Hy Hb].
  injection Hlen as Hlen. cbn [str_lt].
  rewrite !digits_value_cons, Hlen.
  pose proof (digits_value_bounds a Ha) as Ba.
  pose proof (digits_value_bounds b Hb) as Bb. rewrite Hlen in Ba.
  pose proof (digit_bounds x Hx). pose proof (digit_bounds y Hy).
  assert (ch "0" <= x /\ ch "0" <= y)%N as [Hx0 Hy0].
  { unfold is_digit in Hx, Hy. apply andb_true_iff in Hx as [Hx _], Hy as [Hy _].
    apply N.leb_le in Hx, Hy. split; assumption. }
  destruct (N.ltb_spec x y) as [Hlt|Hge].
  - intros _. assert (Z.of_N (x - ch "0") + 1 <= Z.of_N (y - ch "0")) by lia. nia.
  - destruct (N.eqb_spec x y) as [->|Hne]; [|discriminate].
    intros H'. specialize (IH b Hlen Ha Hb H'). lia.
Qed.

Lemma six_digits_spec s :
  six_digits s = true <-> length s = 6%nat /\ forallb is_digit s = true.
Proof.
  unfold six_digits. rewrite andb_true_iff, Nat.eqb_eq. reflexivity.
Qed.

End StringOrder.

(** ** The list of months *)

Section Months.
Import JS Disk.

Lemma sorted_rev {A} (R : A -> A -> Prop) l :
  StronglySorted R l -> StronglySorted (fun a b => R b a) (rev l).
Proof.
  induction 1 as [|x l Hl IH Hx]; cbn; [constructor|].
  apply StronglySorted_app; split; [|split].
  - intros a b Ha Hb. apply list_elem_of_singleton in Hb as ->.
    apply list_elem_of_In, in_rev, list_elem_of_In in Ha.
    rewrite Forall_forall in Hx. apply Hx, Ha.
  - exact IH.
  - repeat constructor.
Qed.

Lemma months_In dataDir m :
  In m (DataRoute.months dataDir) <->
  exists items e, dataDir = Some (Return items)
                  /\ In (m, e) items /\ DataRoute.listed (m, e) = true.
Proof.
  destruct dataDir as [[items|e]|]; cbn [DataRoute.months].
  - rewrite <- in_rev, sort_by_In, in_map_iff. split.
    + intros ([m' e] & <- & H). apply filter_In in H. exists items, e. tauto.
    + intros (items' & e & [= <-] & H). exists (m, e). split; [reflexivity|].
      apply filter_In, H.
  - split; [intros []|intros (? & ? & [=] & _)].
  - split; [intros []|intros (? & ? & [=] & _)].
Qed.

Lemma months_six_digits dataDir :
  Forall (fun m => six_digits m = true) (DataRoute.months dataDir).
Proof.
  apply List.Forall_forall. intros m Hm.
  apply months_In in Hm as (items & e & _ & _ & H).
  unfold DataRoute.listed in H. cbn [fst snd] in H.
  destruct e as [| |files]; try discriminate.
  destruct (six_digits m); [reflexivity|discriminate].
Qed.

Lemma months_sorted dataDir :
  StronglySorted (fun a b => str_le b a = true) (DataRoute.months dataDir).
Proof.
  destruct dataDir as [[items|e]|]; cbn [DataRoute.months]; try constructor.
  apply (sorted_rev (fun a b => str_le a b = true)).
  apply sort_by_sorted; [apply str_le_total|apply str_le_trans].
Qed.

(** X1.  The month list of the per-month route holds exactly the names
    of the listable six-digit folders that hold an Excel file, newest
    first; a missing or unreadable data directory gives the empty list. *)
Theorem months_listed_newest_first (dataDir : directory) :
  (forall m, In m (DataRoute.months dataDir) <->
     exists items e, dataDir = Some (Return items)
                     /\ In (m, e) items /\ DataRoute.listed (m, e) = true)
  /\ Forall (fun m => six_digits m = true) (DataRoute.months dataDir)
  /\ StronglySorted (fun a b => str_le b a = true) (DataRoute.months dataDir).
Proof.
  split; [|split].
  - intros m. apply months_In.
  - apply months_six_digits.
  - apply months_sorted.
Qed.

(** X2.  The yearly route lists the same months as the per-month route,
    in the opposite order. *)
Theorem scan_lists_months_oldest_first (items : list (jsstring * dirent)) :
  map fst (YearlyStats.scan items)
  = rev (DataRoute.months (Some (Return items))).
Proof.
  unfold YearlyStats.scan, DataRoute.months.
  rewrite rev_involutive, map_map. cbn [fst].
  change (fun x : jsstring * dirent => x.1) with (@fst jsstring dirent).
  rewrite (sort_by_fst str_le). reflexivity.
Qed.

End Months.

(** ** Month keys *)

Section MonthKeys.
Import JS Page.

Lemma digit_not_whitespace c : is_digit c = true -> is_whitespace c = false.
Proof.
  unfold is_digit, is_whitespace.
  change (ch "0") with 48%N. change (ch "9") with 57%N.
  intros H. apply andb_true_iff in H as [H1 H2]. apply N.leb_le in H1, H2.
  repeat match goal with
         | |- context [(?a <=? ?b)%N] => destruct (N.leb_spec a b); try lia
         | |- context [(?a =? ?b)%N] => destruct (N.eqb_spec a b); try lia
         end;
  try reflexivity.
Qed.

Lemma radix_digit_decimal c :
  is_digit c = true -> radix_digit 10 c = Some (c - ch "0")%N.
Proof.
  intros H. unfold radix_digit. rewrite H.
  pose proof (digit_bounds c H) as B.
  destruct (N.ltb_spec (c - ch "0") 10); [reflexivity|lia].
Qed.

Lemma radix_prefix_digits ds acc :
  forallb is_digit ds = true ->
  radix_prefix 10 ds (Some acc)
  = Some (fold_left (fun a d => 10 * a + Z.of_N (d - ch "0")) ds acc).
Proof.
  revert acc. induction ds as [|d ds IH]; intros acc H; [reflexivity|].
  cbn [forallb] in H. apply andb_true_iff in H as [Hd Hds].
  cbn [radix_prefix fold_left]. rewrite (radix_digit_decimal d Hd).
  rewrite IH by exact Hds. reflexivity.
Qed.

(** [parseInt] of a text of digits is its value. *)
Lemma parseInt_digits d ds :
  forallb is_digit (d :: ds) = true ->
  parseInt (d :: ds) = Some (digits_value (d :: ds)).
Proof.
  intros H. pose proof H as H'. cbn [forallb] in H'.
  apply andb_true_iff in H' as [Hd Hds].
  unfold parseInt. cbn [trimStart]. rewrite (digit_not_whitespace d Hd).
  assert ((d =? ch "+")%N = false /\ (d =? ch "-")%N = false) as [-> ->].
  { pose proof (digit_bounds d Hd). unfold is_digit in Hd.
    apply andb_true_iff in Hd as [Hd _]. apply N.leb_le in Hd.
    change (ch "0") with 48%N in *. change (ch "+") with 43%N.
    change (ch "-") with 45%N. split; apply N.eqb_neq; lia. }
  assert (radix_prefix 10 (d :: ds) None = Some (digits_value (d :: ds))) as E.
  { cbn [radix_prefix]. rewrite (radix_digit_decimal d Hd).
    rewrite radix_prefix_digits by exact Hds. reflexivity. }
  destruct ds as [|x ds]; [rewrite E; destruct (digits_value [d]); reflexivity|].
  assert (((x =? ch "x") || (x =? ch "X"))%N = false) as ->.
  { cbn [forallb] in Hds. apply andb_true_iff in Hds as [Hx _].
    pose proof (digit_bounds x Hx). unfold is_digit in Hx.
    apply andb_true_iff in Hx as [_ Hx]. apply N.leb_le in Hx.
    change (ch "9") with 57%N in *. change (ch "x") with 120%N.
    change (ch "X") with 88%N. apply orb_false_iff. split; apply N.eqb_neq; lia. }
  rewrite andb_false_r, E. destruct (digits_value (d :: x :: ds)); reflexivity.
Qed.

Lemma year_month_here_groups s y m :
  year_month_here s = Some (y, m) ->
  length y = 4%nat /\ forallb is_digit y = true
  /\ (length m = 1%nat \/ length m = 2%nat) /\ forallb is_digit m = true.
Proof.
  unfold year_month_here.
  destruct s as [|y1 [|y2 [|y3 [|y4 r]]]]; try discriminate.
  destruct (forallb is_digit [y1; y2; y3; y4]) eqn:Hy; [|discriminate].
  match goal with |- context [match ?r' with [] => None | _ => _ end] =>
    destruct r' as [|m1 t] end; [discriminate|].
  destruct (is_digit m1) eqn:H1; [|discriminate].
  destruct t as [|m2 t].
  - intros [= <- <-]. cbn [forallb]. rewrite H1. auto.
  - destruct (is_digit m2) eqn:H2; intros [= <- <-]; cbn [forallb];
      rewrite H1, ?H2; auto.
Qed.

Lemma year_month_search_groups s y m :
  year_month_search s = Some (y, m) ->
  length y = 4%nat /\ forallb is_digit y = true
  /\ (length m = 1%nat \/ length m = 2%nat) /\ forallb is_digit m = true.
Proof.
  induction s as [|c s IH]; cbn [year_month_search].
  - destruct (year_month_here []) as [g|] eqn:E; [|discriminate].
    intros [= ->]. eapply year_month_here_groups, E.
  - destruct (year_month_here (c :: s)) as [g|] eqn:E; [|exact IH].
    intros [= ->]. eapply year_month_here_groups, E.
Qed.

Lemma parseInt_group ds :
  (0 < length ds)%nat -> forallb is_digit ds = true ->
  parseInt ds = Some (digits_value ds).
Proof.
  destruct ds as [|d ds]; [cbn; lia|]. intros _. apply parseInt_digits.
Qed.

Lemma parseMonthKey_six_digits s :
  six_digits s = true -> parseMonthKey s = Some (digits_value s).
Proof.
  intros H. unfold parseMonthKey, year_month. rewrite H.
  apply six_digits_spec in H as [Hl Hd].
  apply parseInt_group; [lia|exact Hd].
Qed.

Lemma parseMonthKey_bounded monthKey :
  exists k, parseMonthKey monthKey = Some k /\ 0 <= k <= 999999.
Proof.
  destruct (six_digits monthKey) eqn:H6.
  - rewrite (parseMonthKey_six_digits _ H6). eexists. split; [reflexivity|].
    apply six_digits_spec in H6 as [Hl Hd].
    pose proof (digits_value_bounds _ Hd) as B. rewrite Hl in B.
    change (10 ^ Z.of_nat 6) with 1000000 in B. lia.
  - unfold parseMonthKey, year_month. rewrite H6.
    destruct (year_month_search monthKey) as [[y m]|] eqn:E.
    + apply year_month_search_groups in E as (Ly & Dy & Lm & Dm).
      rewrite (parseInt_group y), (parseInt_group m) by (assumption || lia).
      eexists. split; [reflexivity|].
      pose proof (digits_value_bounds _ Dy) as By. rewrite Ly in By.
      pose proof (digits_value_bounds _ Dm) as Bm.
      change (10 ^ Z.of_nat 4) with 10000 in By.
      destruct Lm as [Lm|Lm]; rewrite Lm in Bm;
        [change (10 ^ Z.of_nat 1) with 10 in Bm
        |change (10 ^ Z.of_nat 2) with 100 in Bm]; lia.
    + exists 0. split; [reflexivity|lia].
Qed.

(** X3.  [parseMonthKey] never gives NaN: every text has an integer key
    between 0 and 999999, and the key of a six-digit code is its value. *)
Theorem parseMonthKey_is_integer (monthKey : jsstring) :
  (exists k, parseMonthKey monthKey = Some k /\ 0 <= k <= 999999)
  /\ (six_digits monthKey = true ->
      parseMonthKey monthKey = Some (digits_value monthKey)).
Proof.
  split; [apply parseMonthKey_bounded|apply parseMonthKey_six_digits].
Qed.

Lemma parseMonthKey_key s : parseMonthKey s = Some (month_key s).
Proof.
  unfold month_key.
  destruct (parseMonthKey_bounded s) as (k & -> & _). reflexivity.
Qed.

Lemma newer_first_key a b :
  newer_first a b = (month_key b <=? month_key a).
Proof.
  unfold newer_first. rewrite !parseMonthKey_key.
  destruct (Z.leb_spec (month_key b - month_key a) 0);
    destruct (Z.leb_spec (month_key b) (month_key a)); try reflexivity; lia.
Qed.

Lemma sortMonths_sorted months :
  StronglySorted (fun a b => month_key b <= month_key a) (sortMonths months).
Proof.
  eapply sorted_weaken; [|apply sort_by_sorted].
  - intros a b H. cbn in H. rewrite newer_first_key in H. apply Z.leb_le, H.
  - intros x y H. rewrite newer_first_key in *.
    apply Z.leb_gt in H. apply Z.leb_le. lia.
  - intros x y z. rewrite !newer_first_key, !Z.leb_le. lia.
Qed.

(** X4.  [sortMonths] returns the months it is given, newest key first. *)
Theorem sortMonths_newest_first (months : list jsstring) :
  sortMonths months ≡ₚ months
  /\ StronglySorted (fun a b => month_key b <= month_key a) (sortMonths months).
Proof.
  split; [apply sort_by_Permutation|apply sortMonths_sorted].
Qed.

End MonthKeys.

Section MonthOrder.
Import JS Page.

Lemma key_order_six_digits a b :
  six_digits a = true -> six_digits b = true ->
  str_le b a = true -> month_key b <= month_key a.
Proof.
  intros Ha Hb H. unfold month_key.
  rewrite (parseMonthKey_six_digits a Ha), (parseMonthKey_six_digits b Hb).
  apply six_digits_spec in Ha as [La Da], Hb as [Lb Db].
  unfold str_le in H. apply negb_true_iff in H.
  destruct (str_lt b a) eqn:E.
  - pose proof (str_lt_digits b a ltac:(lia) Db Da E). lia.
  - rewrite (str_lt_total a b H E). lia.
Qed.

Lemma key_injective_six_digits a b :
  six_digits a = true -> six_digits b = true ->
  month_key a = month_key b -> a = b.
Proof.
  intros Ha Hb. unfold month_key.
  rewrite (parseMonthKey_six_digits a Ha), (parseMonthKey_six_digits b Hb).
  apply six_digits_spec in Ha as [La Da], Hb as [Lb Db]. intros H.
  destruct (str_lt a b) eqn:E1.
  { pose proof (str_lt_digits a b ltac:(lia) Da Db E1). lia. }
  destruct (str_lt b a) eqn:E2.
  { pose proof (str_lt_digits b a ltac:(lia) Db Da E2). lia. }
  apply str_lt_total; assumption.
Qed.

(** X5.  The board sorts the month list of the per-month route again:
    this changes nothing, the list comes newest key first already. *)
Theorem sortMonths_keeps_route_order (dataDir : Disk.directory) :
  sortMonths (DataRoute.months dataDir) = DataRoute.months dataDir.
Proof.
  apply sort_by_fixed, StronglySorted_Sorted.
  pose proof (months_six_digits dataDir) as H6.
  pose proof (months_sorted dataDir) as Hs.
  induction Hs as [|a l Hl IH Ha]; constructor.
  - apply IH. inversion H6; assumption.
  - inversion H6 as [|? ? H6a H6l]; subst.
    rewrite List.Forall_forall in *. intros b Hb.
    rewrite newer_first_key. apply Z.leb_le.
    apply key_order_six_digits; auto.
Qed.






(** X22.  When the month list arrives and no month is selected yet, the
    board selects a month of the list with the greatest key; an empty
    list selects nothing. *)
Theorem selectMonth_opens_newest (months : list jsstring) :
  match months with
  | [] => selectMonth months [] = []
  | _ :: _ =>
      In (selectMonth months []) months
      /\ forall m, In m months -> month_key m <= month_key (selectMonth months [])
  end.
Proof.
  destruct months as [|m0 months]; [reflexivity|].
  unfold selectMonth.
  pose proof (sortMonths_sorted (m0 :: months)) as Hs.
  assert (forall m, In m (m0 :: months) <-> In m (sortMonths (m0 :: months))) as Hin.
  { intros m. symmetry. apply sort_by_In. }
  destruct (sortMonths (m0 :: months)) as [|newest rest].
  - destruct (proj1 (Hin m0) ltac:(left; reflexivity)).
  - rewrite bool_decide_eq_true_2 by reflexivity. split.
    + apply Hin. left. reflexivity.
    + intros m Hm. apply Hin in Hm as [<-|Hm]; [lia|].
      apply StronglySorted_cons in Hs as [Hs _].
      rewrite Forall_forall in Hs. apply (Hs m), list_elem_of_In, Hm.
Qed.

End MonthOrder.

Section MonthDisplay.
Import JS Page.

Lemma digits_value_app a b :
  digits_value (a ++ b) = digits_value a * 10 ^ Z.of_nat (length b) + digits_value b.
Proof.
  unfold digits_value at 1. rewrite fold_left_app.
  fold (digits_value a). apply digits_value_from.
Qed.

Lemma decimal_below_100 n :
  (n < 100)%N ->
  forallb is_digit (decimal n) = true
  /\ (length (decimal n) = 1%nat \/ length (decimal n) = 2%nat)
  /\ digits_value (decimal n) = Z.of_N n.
Proof.
  intros H. destruct n as [|p]; [vm_compute; auto|].
  do 7 (try destruct p as [p|p|]); try lia; vm_compute; auto.
Qed.

Lemma year_month_search_here s groups :
  year_month_here s = Some groups -> year_month_search s = Some groups.
Proof. destruct s; cbn [year_month_search]; intros ->; reflexivity. Qed.

Lemma parseMonthKey_formatMonthDisplay monthCode :
  six_digits monthCode = true ->
  parseMonthKey (formatMonthDisplay monthCode) = parseMonthKey monthCode.
Proof.
  intros H6. rewrite (parseMonthKey_six_digits _ H6).
  unfold formatMonthDisplay, year_month. rewrite H6.
  apply six_digits_spec in H6 as [Hl Hd].
  destruct monthCode as [|y1 [|y2 [|y3 [|y4 [|m1 [|m2 [|? ?]]]]]]]; try discriminate.
  cbn [take drop].
  assert (forallb is_digit [y1; y2; y3; y4] = true
          /\ forallb is_digit [m1; m2] = true) as [Hy Hm].
  { cbn [forallb] in *.
    apply andb_true_iff in Hd as [A1 Hd]. apply andb_true_iff in Hd as [A2 Hd].
    apply andb_true_iff in Hd as [A3 Hd]. apply andb_true_iff in Hd as [A4 Hd].
    apply andb_true_iff in Hd as [A5 Hd]. apply andb_true_iff in Hd as [A6 Hd].
    rewrite A1, A2, A3, A4, A5, A6. split; reflexivity. }
  rewrite (parseInt_digits m1 [m2] Hm).
  pose proof (digits_value_bounds [m1; m2] Hm) as Bm.
  change (10 ^ Z.of_nat (length [m1; m2])) with 100 in Bm.
  assert (show (Some (digits_value [m1; m2]))
          = decimal (Z.to_N (digits_value [m1; m2]))) as ->.
  { unfold show. destruct (digits_value [m1; m2]); try reflexivity. lia. }
  destruct (decimal_below_100 (Z.to_N (digits_value [m1; m2])) ltac:(lia))
    as (Dd & Ld & Vd).
  rewrite Z2N.id in Vd by lia.
  remember (decimal (Z.to_N (digits_value [m1; m2]))) as ds eqn:Eds. clear Eds.
  change [y1; y2; y3; y4; m1; m2] with ([y1; y2; y3; y4] ++ [m1; m2]).
  rewrite digits_value_app.
  change (10 ^ Z.of_nat (length [m1; m2])) with 100.
  rewrite <- Vd. clear Vd Bm Hm Hd Hl.
  change (js "年") with [24180%N]. change (js "月") with [26376%N].
  assert (parseInt [y1; y2; y3; y4] = Some (digits_value [y1; y2; y3; y4])) as Py
    by (apply parseInt_digits, Hy).
  unfold parseMonthKey, year_month.
  destruct Ld as [Ld|Ld].
  - destruct ds as [|d [|? ?]]; try discriminate.
    cbn [forallb] in Dd. apply andb_true_iff in Dd as [Dd _].
    assert (six_digits ([y1; y2; y3; y4] ++ [24180%N] ++ [d] ++ [26376%N]) = false)
      as -> by reflexivity.
    rewrite (year_month_search_here _ ([y1; y2; y3; y4], [d])).
    2:{ cbn [app year_month_here]. rewrite Hy.
        change (bool_decide ([24180%N] = js "年")) with true. cbn [orb].
        rewrite Dd. reflexivity. }
    rewrite Py, (parseInt_digits d []) by (cbn [forallb]; rewrite Dd; reflexivity).
    reflexivity.
  - destruct ds as [|d1 [|d2 [|? ?]]]; try discriminate.
    cbn [forallb] in Dd. apply andb_true_iff in Dd as [Dd1 Dd2].
    apply andb_true_iff in Dd2 as [Dd2 _].
    assert (six_digits ([y1; y2; y3; y4] ++ [24180%N] ++ [d1; d2] ++ [26376%N])
            = false) as -> by reflexivity.
    rewrite (year_month_search_here _ ([y1; y2; y3; y4], [d1; d2])).
    2:{ cbn [app year_month_here]. rewrite Hy.
        change (bool_decide ([24180%N] = js "年")) with true. cbn [orb].
        rewrite Dd1, Dd2. reflexivity. }
    rewrite Py, (parseInt_digits d1 [d2])
      by (cbn [forallb]; rewrite Dd1, Dd2; reflexivity).
    reflexivity.
Qed.

(** X6.  The two forms of a month agree: the text the board shows for a
    six-digit code ([2025年11月] for [202511]) has the same key as the
    code. *)
Theorem parseMonthKey_of_display (monthCode : jsstring) :
  six_digits monthCode = true ->
  parseMonthKey (formatMonthDisplay monthCode) = parseMonthKey monthCode.
Proof. apply parseMonthKey_formatMonthDisplay. Qed.

Lemma parseMonthKey_of_display_witness :
  parseMonthKey (formatMonthDisplay (js "202511")) = parseMonthKey (js "202511").
Proof. exact (parseMonthKey_of_display (js "202511") eq_refl). Defined.

(** X20.  Two six-digit months that the board shows with the same text
    are the same month. *)
Theorem formatMonthDisplay_distinguishes_months (a b : jsstring) :
  six_digits a = true -> six_digits b = true ->
  formatMonthDisplay a = formatMonthDisplay b -> a = b.
Proof.
  intros Ha Hb E. apply key_injective_six_digits; [exact Ha|exact Hb|].
  unfold month_key.
  rewrite <- (parseMonthKey_formatMonthDisplay a Ha),
          <- (parseMonthKey_formatMonthDisplay b Hb), E.
  reflexivity.
Qed.

Lemma formatMonthDisplay_distinguishes_months_witness :
  js "202501" = js "202501".
Proof.
  exact (formatMonthDisplay_distinguishes_months (js "202501") (js "202501")
           eq_refl eq_refl eq_refl).
Defined.

End MonthDisplay.

(** ** The yearly series *)

Section YearlySeries.
Import JS YearlyStats.

Variable numberToString : number -> jsstring.

Lemma visitRow_series month idx i1 i2 i3 statsMap row name stats :
  name ∈ TARGET_ACCOUNTS ->
  statsMap !! name = Some stats ->
  exists stats',
    visitRow numberToString month idx i1 i2 i3 statsMap row !! name = Some stats'
    /\ monthlyData stats'
       = monthlyData stats
         ++ (if names_account numberToString idx name row
             then [{| month := month;
                      阅读总数 := column row i1;
                      头条文章阅读量 := column row i2;
                      转发总量 := column row i3 |}]
             else []).
Proof.
  intros Hin Hl. unfold visitRow, names_account.
  destruct (truthy (at_found row idx)) eqn:Ht; cbn [negb andb].
  2:{ exists stats. rewrite app_nil_r. auto. }
  destruct (nameOf numberToString row idx) as [accountName|] eqn:Hn.
  2:{ exists stats. rewrite bool_decide_eq_false_2 by discriminate.
      rewrite app_nil_r. auto. }
  destruct (decide (accountName = name)) as [->|Hne].
  - rewrite (bool_decide_eq_true_2 _ Hin), Hl.
    rewrite (bool_decide_eq_true_2 (Some name = Some name)) by reflexivity.
    eexists. rewrite lookup_insert_eq. split; reflexivity.
  - rewrite (bool_decide_eq_false_2 (Some accountName = Some name)) by congruence.
    exists stats. rewrite app_nil_r. split; [|reflexivity].
    destruct (bool_decide _); [|exact Hl].
    destruct (statsMap !! accountName); [|exact Hl].
    rewrite lookup_insert_ne by exact Hne. exact Hl.
Qed.

Lemma visitRows_series month idx i1 i2 i3 dataRows statsMap name stats :
  name ∈ TARGET_ACCOUNTS ->
  statsMap !! name = Some stats ->
  exists stats',
    fold_left (visitRow numberToString month idx i1 i2 i3) dataRows statsMap !! name
    = Some stats'
    /\ monthlyData stats'
       = monthlyData stats
         ++ map (fun row => {| month := month;
                               阅读总数 := column row i1;
                               头条文章阅读量 := column row i2;
                               转发总量 := column row i3 |})
                (List.filter (names_account numberToString idx name) dataRows).
Proof.
  intros Hin. revert statsMap stats.
  induction dataRows as [|row dataRows IH]; intros statsMap stats Hl.
  - exists stats. rewrite app_nil_r. auto.
  - cbn [fold_left List.filter].
    destruct (visitRow_series month idx i1 i2 i3 statsMap row name stats Hin Hl)
      as (s1 & Hl1 & E1).
    destruct (IH _ _ Hl1) as (s2 & Hl2 & E2).
    exists s2. split; [exact Hl2|]. rewrite E2, E1.
    destruct (names_account numberToString idx name row);
      rewrite <- app_assoc; reflexivity.
Qed.

Lemma visitMonth_series statsMap m statsMap' name stats :
  name ∈ TARGET_ACCOUNTS ->
  statsMap !! name = Some stats ->
  visitMonth numberToString statsMap m = Return statsMap' ->
  exists stats',
    statsMap' !! name = Some stats'
    /\ monthlyData stats' = monthlyData stats ++ items numberToString name m.
Proof.
  intros Hin Hl Hv. destruct m as [mo f]. rewrite visitMonth_eq in Hv.
  unfold items. cbn [fst snd].
  destruct f as [| |e| |[|headers [|row dataRows]]];
    try discriminate Hv;
    try (injection Hv as <-; exists stats; rewrite app_nil_r; auto; fail).
  injection Hv as <-.
  apply (visitRows_series _ _ _ _ _ (row :: dataRows)); assumption.
Qed.

Lemma visitMonths_series months statsMap statsMap' name stats :
  name ∈ TARGET_ACCOUNTS ->
  statsMap !! name = Some stats ->
  visitMonths numberToString months statsMap = Return statsMap' ->
  exists stats',
    statsMap' !! name = Some stats'
    /\ monthlyData stats' = monthlyData stats ++ flat_map (items numberToString name) months.
Proof.
  intros Hin. revert statsMap stats.
  induction months as [|m months IH]; intros statsMap stats Hl Hv.
  - injection Hv as <-. exists stats. rewrite app_nil_r. auto.
  - cbn [visitMonths] in Hv.
    destruct (visitMonth numberToString statsMap m) as [s1|e] eqn:Hm;
      [|discriminate Hv].
    cbn [mbind completion_bind] in Hv.
    destruct (visitMonth_series _ _ _ _ _ Hin Hl Hm) as (st1 & Hl1 & E1).
    destruct (IH _ _ Hl1 Hv) as (st2 & Hl2 & E2).
    exists st2. split; [exact Hl2|]. rewrite E2, E1.
    cbn [flat_map]. rewrite <- app_assoc. reflexivity.
Qed.

Lemma initial_series name :
  name ∈ TARGET_ACCOUNTS ->
  exists stats, initial !! name = Some stats /\ monthlyData stats = [].
Proof.
  intros Hin. unfold initial, TARGET_ACCOUNTS in *. cbn [fold_left].
  repeat (apply elem_of_cons in Hin as [->|Hin];
          [rewrite ?lookup_insert_eq, ?lookup_insert_ne by discriminate; eauto|]).
  apply elem_of_nil in Hin. contradiction.
Qed.

Lemma GET_series months data listed i name :
  GET numberToString months = Stats data listed ->
  TARGET_ACCOUNTS !! i = Some name ->
  exists stats,
    data !! i = Some (Some stats)
    /\ monthlyData stats = flat_map (items numberToString name) months.
Proof.
  intros H Hi. rewrite GET_eq in H.
  destruct (visitMonths numberToString months initial) as [statsMap|e] eqn:Hv;
    [|discriminate H].
  assert (data = map (fun name => statsMap !! name) TARGET_ACCOUNTS) as ->
    by congruence.
  assert (name ∈ TARGET_ACCOUNTS) as Hin by (eapply list_elem_of_lookup_2, Hi).
  destruct (initial_series name Hin) as (st0 & Hl0 & E0).
  destruct (visitMonths_series _ _ _ _ _ Hin Hl0 Hv) as (st & Hl & E).
  exists st. rewrite lookup_map, Hi. cbn [option_map]. rewrite Hl, E, E0.
  split; reflexivity.
Qed.

Lemma items_month name m d : In d (items numberToString name m) -> month d = m.1.
Proof.
  unfold items. destruct m.2 as [| | | |[|headers [|row dataRows]]];
    try (intros []; fail).
  intros H. apply in_map_iff in H as (r & <- & _). reflexivity.
Qed.

Lemma series_sorted (R : jsstring -> jsstring -> Prop) name months :
  (forall a, R a a) ->
  StronglySorted R (map fst months) ->
  StronglySorted R (map month (flat_map (items numberToString name) months)).
Proof.
  intros Hrefl. induction months as [|m months IH]; cbn [map flat_map];
    intros Hs; [constructor|].
  apply StronglySorted_cons in Hs as [Hm Hs].
  rewrite map_app. apply StronglySorted_app. split; [|split].
  - intros a b Ha Hb.
    apply list_elem_of_In, in_map_iff in Ha as (da & <- & Ha).
    apply list_elem_of_In, in_map_iff in Hb as (db & <- & Hb).
    rewrite (items_month _ _ _ Ha).
    apply in_flat_map in Hb as (m' & Hm' & Hb).
    rewrite (items_month _ _ _ Hb).
    rewrite List.Forall_forall in Hm. apply Hm, in_map, Hm'.
  - assert (Forall (fun d => month d = m.1) (items numberToString name m)) as Hall
      by (apply List.Forall_forall; intros d; apply items_month).
    induction Hall as [|d l Hd Hl IHl]; cbn [map]; constructor; [exact IHl|].
    apply List.Forall_forall. intros b Hb.
    apply in_map_iff in Hb as (db & <- & Hb).
    rewrite List.Forall_forall in Hl. rewrite Hd, (Hl _ Hb). apply Hrefl.
  - apply IH, Hs.
Qed.

End YearlySeries.

(** ** A month that fails is skipped *)

Section Isolation.
Import JS YearlyStats.






End Isolation.

Section YearlyRoute.
Import JS YearlyStats.

(** X8.  The series of a tracked account holds one item for each record
    of the account, month after month in the order of the months and row
    after row inside a month; the answer lists every month it was given. *)
Theorem series_lists_every_record
    (numberToString : number -> jsstring) (months : list (jsstring * folder))
    (data : list (option AccountYearlyStats)) (listed : list jsstring) :
  GET numberToString months = Stats data listed ->
  listed = map fst months
  /\ forall i name, TARGET_ACCOUNTS !! i = Some name ->
       exists stats,
         data !! i = Some (Some stats)
         /\ monthlyData stats = flat_map (items numberToString name) months.
Proof.
  intros H. split.
  - rewrite GET_eq in H.
    destruct (visitMonths numberToString months initial); congruence.
  - intros i name Hi. eapply GET_series; eassumption.
Qed.

Lemma series_lists_every_record_witness :
  exists data,
    GET not_called [january; february; march]
    = Stats data [js "202501"; js "202502"; js "202503"]
    /\ forall i name, TARGET_ACCOUNTS !! i = Some name ->
         exists stats,
           data !! i = Some (Some stats)
           /\ monthlyData stats
              = flat_map (items not_called name) [january; february; march].
Proof.
  eexists. split; [vm_compute; reflexivity|].
  eapply (proj2 (series_lists_every_record not_called [january; february; march]
                   _ _ ltac:(vm_compute; reflexivity))).
Defined.

Lemma scan_listed items m :
  In m (scan items) ->
  exists item, In item items /\ listed item = true
               /\ m = (item.1, folder_of item.2).
Proof.
  unfold scan. intros H. apply in_map_iff in H as (item & <- & H).
  apply sort_by_In, filter_In in H. exists item. tauto.
Qed.

Lemma listed_is_read item :
  listed item = true ->
  match folder_of item.2 with
  | Unlistable | NoExcelFile => False
  | _ => True
  end.
Proof.
  unfold listed, folder_of. destruct item.2 as [| |[files|e]]; try discriminate;
    (destruct (negb _); [discriminate|]); [|discriminate].
  intros H. apply existsb_exists in H as (file & Hin & Hf).
  destruct (find _ files) as [[n c]|] eqn:E.
  - destruct c; exact I.
  - eapply find_none in E; [|exact Hin]. cbn beta in E. congruence.
Qed.

Lemma scan_sorted items :
  StronglySorted (fun a b => str_le a b = true) (map fst (scan items)).
Proof.
  unfold scan. rewrite map_map. cbn [fst].
  change (fun x : jsstring * Disk.dirent => x.1) with (@fst jsstring Disk.dirent).
  rewrite (sort_by_fst str_le).
  apply sort_by_sorted; [apply str_le_total|apply str_le_trans].
Qed.

Lemma route_answers numberToString items :
  exists data, route numberToString (Some (Return items))
               = Stats data (map fst (scan items)).
Proof.
  cbn [route]. apply GET_answers. apply List.Forall_forall. intros m Hm.
  apply scan_listed in Hm as (item & _ & Hl & ->). cbn [snd].
  pose proof (listed_is_read item Hl) as H. intros E. rewrite E in H. exact H.
Qed.

(** X9.  Whenever the data directory can be listed, the yearly route
    answers with the statistics: every month it lists is a folder that it
    can list again and that holds an Excel file, and a file that cannot be
    read or decoded is skipped.  A missing data directory gives status
    404, one that cannot be listed status 500. *)
Theorem route_answers_on_listable_directory
    (numberToString : number -> jsstring) :
  (forall items, exists data,
     route numberToString (Some (Return items)) = Stats data (map fst (scan items)))
  /\ (forall items m, In m (scan items) ->
        match m.2 with
        | Unlistable | NoExcelFile => False
        | _ => True
        end)
  /\ route numberToString None = ServerError 404
  /\ (forall e, route numberToString (Some (Throw e)) = ServerError 500).
Proof.
  split; [apply route_answers|]. split; [|split; reflexivity].
  intros items m Hm. apply scan_listed in Hm as (item & _ & Hl & ->).
  apply listed_is_read, Hl.
Qed.

Lemma str_le_refl a : str_le a a = true.
Proof. unfold str_le. rewrite str_lt_irrefl. reflexivity. Qed.

(** X10.  In the answer of the yearly route the months are listed oldest
    first, and the series of every tracked account follows that order. *)
Theorem route_series_in_month_order
    (numberToString : number -> jsstring) (dataDir : Disk.directory)
    (data : list (option AccountYearlyStats)) (listed : list jsstring) :
  route numberToString dataDir = Stats data listed ->
  StronglySorted (fun a b => str_le a b = true) listed
  /\ forall i name, TARGET_ACCOUNTS !! i = Some name ->
       exists stats,
         data !! i = Some (Some stats)
         /\ StronglySorted (fun a b => str_le a b = true)
              (map month (monthlyData stats)).
Proof.
  destruct dataDir as [[items|e]|]; cbn [route]; try discriminate.
  intros H. split.
  - rewrite GET_eq in H.
    destruct (visitMonths numberToString (scan items) initial); [|discriminate].
    injection H as _ <-. apply scan_sorted.
  - intros i name Hi.
    destruct (GET_series numberToString _ _ _ i name H Hi) as (stats & Hd & E).
    exists stats. split; [exact Hd|]. rewrite E.
    apply series_sorted; [apply str_le_refl|apply scan_sorted].
Qed.

Lemma route_series_in_month_order_witness :
  exists data,
    route not_called (Some (Return sample_disk))
    = Stats data [js "202501"; js "202502"]
    /\ forall i name, TARGET_ACCOUNTS !! i = Some name ->
         exists stats,
           data !! i = Some (Some stats)
           /\ StronglySorted (fun a b => str_le a b = true)
                (map month (monthlyData stats)).
Proof.
  eexists. split; [vm_compute; reflexivity|].
  eapply (proj2 (route_series_in_month_order not_called (Some (Return sample_disk))
                   _ _ ltac:(vm_compute; reflexivity))).
Defined.

Lemma find_app {A} (p : A -> bool) l1 l2 :
  find p (l1 ++ l2) = match find p l1 with Some x => Some x | None => find p l2 end.
Proof.
  induction l1 as [|x l1 IH]; cbn; [reflexivity|]. destruct (p x); auto.
Qed.

Lemma find_none_all {A} (p : A -> bool) l :
  (forall x, In x l -> p x = false) -> find p l = None.
Proof.
  induction l as [|x l IH]; cbn; intros H; [reflexivity|].
  rewrite H by (left; reflexivity). apply IH. intros y Hy. apply H. right. exact Hy.
Qed.

Lemma find_other_months numberToString name mo months :
  ~ In mo (map fst months) ->
  find (fun d => bool_decide (month d = mo))
       (flat_map (items numberToString name) months) = None.
Proof.
  intros Hn. apply find_none_all. intros d Hd.
  apply in_flat_map in Hd as (m & Hm & Hd).
  apply bool_decide_eq_false. intros E.
  apply Hn. rewrite <- E, (items_month _ _ _ _ Hd). apply in_map, Hm.
Qed.

(** X11.  On the yearly page the cell of an account under a month shows
    the first record of the account in that month's sheet (further
    records of the same month are in the total, but not in the cell), and
    [-] exactly when the month holds no record of the account. *)
Theorem monthCell_shows_first_record
    (numberToString : number -> jsstring) (months : list (jsstring * folder))
    (data : list (option AccountYearlyStats)) (listed : list jsstring)
    (i : nat) (name : jsstring) (stats : AccountYearlyStats)
    (mo : jsstring) (f : folder) :
  GET numberToString months = Stats data listed ->
  NoDup (map fst months) ->
  TARGET_ACCOUNTS !! i = Some name ->
  data !! i = Some (Some stats) ->
  In (mo, f) months ->
  ThreeVsPage.monthCell stats mo = head (items numberToString name (mo, f))
  /\ (ThreeVsPage.monthCell stats mo = None
      <-> has_record numberToString name f = false).
Proof.
  intros H Hnd Hi Hd Hin.
  destruct (GET_series numberToString _ _ _ i name H Hi) as (stats' & Hd' & E).
  assert (stats' = stats) as -> by congruence.
  assert (ThreeVsPage.monthCell stats mo
          = head (items numberToString name (mo, f))) as Hcell.
  { unfold ThreeVsPage.monthCell. rewrite E.
    apply in_split in Hin as (before & after & ->).
    rewrite map_app in Hnd. cbn [map fst] in Hnd.
    apply NoDup_app in Hnd as (_ & Hba & Hnd).
    apply NoDup_cons in Hnd as [Hna _].
    rewrite flat_map_app. cbn [flat_map]. rewrite !find_app.
    rewrite find_other_months.
    2:{ intros Hb. apply (Hba mo); [apply list_elem_of_In, Hb|left]. }
    rewrite (find_other_months _ _ mo after).
    2:{ intros Ha. apply Hna, list_elem_of_In, Ha. }
    pose proof (items_month numberToString name (mo, f)) as Hm.
    destruct (items numberToString name (mo, f)) as [|d l]; [reflexivity|].
    cbn [find head]. rewrite bool_decide_eq_true_2; [reflexivity|].
    apply Hm. left. reflexivity. }
  split; [exact Hcell|]. rewrite Hcell.
  unfold items, has_record. cbn [fst snd].
  destruct f as [| |e| |[|headers [|row dataRows]]]; try tauto.
  match goal with |- context [List.filter ?p ?l] =>
    generalize p; generalize l end.
  intros l p. split.
  - intros H0. destruct (existsb p l) eqn:Ex; [|reflexivity].
    apply existsb_exists in Ex as (r & Hr & Hp).
    assert (In r (List.filter p l)) as Hf by (apply filter_In; auto).
    destruct (List.filter p l); [destruct Hf|discriminate H0].
  - intros Ex. destruct (List.filter p l) as [|r l'] eqn:Ef; [reflexivity|].
    assert (In r (List.filter p l)) as Hf by (rewrite Ef; left; reflexivity).
    apply filter_In in Hf as [Hr Hp].
    assert (existsb p l = true) by (apply existsb_exists; eauto). congruence.
Qed.

Lemma monthCell_shows_first_record_witness :
  exists data stats,
    GET not_called [january; february; march]
    = Stats data [js "202501"; js "202502"; js "202503"]
    /\ data !! 2%nat = Some (Some stats)
    /\ (ThreeVsPage.monthCell stats (js "202503")
        = head (items not_called (js "量子位") march)
        /\ (ThreeVsPage.monthCell stats (js "202503") = None
            <-> has_record not_called (js "量子位") march.2 = false)).
Proof.
  eexists. eexists. split; [vm_compute; reflexivity|].
  split; [reflexivity|].
  apply (monthCell_shows_first_record not_called [january; february; march]
           _ _ 2 (js "量子位") _ (js "202503") march.2
           ltac:(vm_compute; reflexivity)).
  - apply (bool_decide_unpack _). vm_compute. exact I.
  - reflexivity.
  - reflexivity.
  - right. right. left. reflexivity.
Defined.

End YearlyRoute.

(** ** The fields of an account *)

Section Fields.
Import JS ExcelReader.

Variable numberToString : number -> jsstring.

Lemma lookup_assign (account : AccountData) key v k :
  assign account key v !! k
  = if bool_decide (key = js "__proto__") then account !! k
    else if bool_decide (key = k) then Some v else account !! k.
Proof.
  unfold assign. destruct (bool_decide (key = js "__proto__")); [reflexivity|].
  destruct (bool_decide (key = k)) eqn:E.
  - apply bool_decide_eq_true in E as ->. apply lookup_insert_eq.
  - apply bool_decide_eq_false in E. apply lookup_insert_ne, E.
Qed.

Lemma toAccount_fields headers row k :
  is_Some (toAccount numberToString headers row !! k)
  <-> k <> js "__proto__" /\ In k (map (property_key numberToString) headers).
Proof.
  induction headers as [|h headers IH] using rev_ind.
  - cbn. rewrite lookup_empty. split; [intros [? [=]]|intros [_ []]].
  - rewrite toAccount_snoc, lookup_assign, map_app, in_app_iff. cbn [map In].
    destruct (bool_decide (property_key numberToString h = js "__proto__")) eqn:Ep.
    + apply bool_decide_eq_true in Ep. rewrite IH. intuition congruence.
    + apply bool_decide_eq_false in Ep.
      destruct (bool_decide (property_key numberToString h = k)) eqn:Ek.
      * apply bool_decide_eq_true in Ek. subst k. split; [auto|eauto].
      * apply bool_decide_eq_false in Ek. rewrite IH. intuition congruence.
Qed.

(** A field comes from a cell under a header of its name. *)
Lemma toAccount_origin headers row k v :
  toAccount numberToString headers row !! k = Some v ->
  exists i header,
    headers !! i = Some header
    /\ property_key numberToString header = k
    /\ v = field numberToString header (at_index row i).
Proof.
  induction headers as [|h headers IH] using rev_ind.
  - cbn. rewrite lookup_empty. discriminate.
  - rewrite toAccount_snoc, lookup_assign.
    assert (toAccount numberToString headers row !! k = Some v ->
            exists i header,
              (headers ++ [h]) !! i = Some header
              /\ property_key numberToString header = k
              /\ v = field numberToString header (at_index row i)) as IH'.
    { intros H. destruct (IH H) as (i & header & Hi & Hk & Hv).
      exists i, header. split; [|auto].
      rewrite lookup_app_l; [exact Hi|]. apply lookup_lt_Some in Hi. exact Hi. }
    destruct (bool_decide (property_key numberToString h = js "__proto__"));
      [exact IH'|].
    destruct (bool_decide (property_key numberToString h = k)) eqn:Ek; [|exact IH'].
    apply bool_decide_eq_true in Ek. intros [= <-].
    exists (length headers), h. split; [|auto].
    rewrite lookup_app_r, Nat.sub_diag by lia. reflexivity.
Qed.

Lemma field_name header value :
  is_string header 公众号 || is_string header 帐号名 = true ->
  exists s, field numberToString header value = Str s.
Proof.
  intros H. unfold field. rewrite H.
  destruct (opt_toString numberToString value) as [[|c s]|]; eauto.
Qed.

Lemma parseNumber_nan_passes value :
  isNaN (parseNumber value) = true -> value = Num NaN.
Proof.
  destruct value as [| |b|n|s]; try discriminate.
  - destruct n; try discriminate. reflexivity.
  - rewrite ExcelReader_parseNumber_not_nan. discriminate.
Qed.

End Fields.

Section Accounts.
Import JS ExcelReader.

(** X12.  An account has one field for every header name, and no other
    field: a column the reports add later comes through by itself. *)
Theorem account_has_the_header_fields
    (numberToString : number -> jsstring) (headers row : list any) (k : jsstring) :
  (is_Some (toAccount numberToString headers row !! k)
   <-> k <> js "__proto__" /\ In k (map (property_key numberToString) headers))
  /\ (is_Some (DataRoute.toAccount numberToString headers row !! k)
      <-> k <> js "__proto__" /\ In k (map (property_key numberToString) headers)).
Proof.
  split; [|rewrite DataRoute_toAccount_eq]; apply toAccount_fields.
Qed.

Lemma toAccount_typed numberToString headers row k v :
  all_strings headers ->
  toAccount numberToString headers row !! k = Some v ->
  if bool_decide (k = 公众号) || bool_decide (k = 帐号名)
  then exists s, v = Str s
  else exists n, v = Num n /\ (isNaN n = true -> In (Num NaN) row).
Proof.
  intros Hs H.
  apply toAccount_origin in H as (i & header & Hi & Hk & ->).
  unfold all_strings in Hs. rewrite Forall_forall in Hs.
  destruct (Hs header) as [s ->]; [eapply list_elem_of_lookup_2, Hi|].
  cbn [property_key] in Hk. subst s.
  destruct (bool_decide (k = 公众号) || bool_decide (k = 帐号名)) eqn:E.
  - apply field_name. exact E.
  - unfold field. cbn [is_string]. rewrite E. eexists. split; [reflexivity|].
    intros Hn. apply parseNumber_nan_passes in Hn.
    unfold at_index in Hn. destruct (row !! i) as [c|] eqn:Ec; [|discriminate].
    subst c. apply list_elem_of_In. eapply list_elem_of_lookup_2, Ec.
Qed.

(** X13.  Under a header of strings the two name fields of an account
    hold text and every other field holds a number; that number is NaN
    only if the row holds the number NaN itself, never because a text
    could not be parsed. *)
Theorem account_fields_are_typed
    (numberToString : number -> jsstring) (headers row : list any)
    (k : jsstring) (v : any) :
  all_strings headers ->
  toAccount numberToString headers row !! k = Some v ->
  if bool_decide (k = 公众号) || bool_decide (k = 帐号名)
  then exists s, v = Str s
  else exists n, v = Num n /\ (isNaN n = true -> In (Num NaN) row).
Proof. apply toAccount_typed. Qed.

Lemma account_fields_are_typed_witness :
  exists n,
    Num (of_Z 12000) = Num n
    /\ (isNaN n = true -> In (Num NaN) [Str (js "A"); Str []; Str (js "1.2w")]).
Proof.
  exact (account_fields_are_typed not_called standard
           [Str (js "A"); Str []; Str (js "1.2w")]
           (js "阅读总数") (Num (of_Z 12000))
           ltac:(repeat constructor; eexists; reflexivity)
           ltac:(vm_compute; reflexivity)).
Defined.

Lemma toAccount_name_text numberToString headers row k :
  all_strings headers ->
  k = 公众号 \/ k = 帐号名 ->
  textual (prop (toAccount numberToString headers row) k) = true.
Proof.
  intros Hs Hk. unfold prop.
  destruct (toAccount numberToString headers row !! k) as [v|] eqn:E; [|reflexivity].
  pose proof (toAccount_typed _ _ _ _ _ Hs E) as T.
  assert (bool_decide (k = 公众号) || bool_decide (k = 帐号名) = true) as Hb.
  { apply orb_true_iff.
    destruct Hk as [->| ->]; [left|right]; apply bool_decide_eq_true_2; reflexivity. }
  rewrite Hb in T. destruct T as [s ->]. reflexivity.
Qed.

(** X14.  The key of an account built under a header of strings is a
    string, so that the key of one period can be compared with the key of
    another. *)
Theorem built_account_key_is_text
    (numberToString : number -> jsstring) (headers row : list any) :
  all_strings headers ->
  exists s, getAccountKey (toAccount numberToString headers row) = Str s.
Proof.
  intros Hs.
  pose proof (toAccount_name_text numberToString headers row 帐号名 Hs
                ltac:(right; reflexivity)) as Ha.
  pose proof (toAccount_name_text numberToString headers row 公众号 Hs
                ltac:(left; reflexivity)) as Hp.
  unfold getAccountKey, or.
  destruct (prop _ 帐号名) as [| |?|?|[|? ?]]; try discriminate;
    destruct (prop _ 公众号) as [| |?|?|[|? ?]]; try discriminate; cbn; eauto.
Qed.

Lemma built_account_key_is_text_witness :
  exists s, getAccountKey
              (toAccount not_called standard
                 [Str (js "B"); Str (js "b2"); Str (js "300+")]) = Str s.
Proof.
  exact (built_account_key_is_text not_called standard
           [Str (js "B"); Str (js "b2"); Str (js "300+")]
           ltac:(repeat constructor; eexists; reflexivity)).
Defined.

Lemma field_name_text numberToString header value :
  is_string header 公众号 || is_string header 帐号名 = true ->
  textual value = true ->
  field numberToString header value = Str (text value).
Proof.
  intros H T. unfold field. rewrite H.
  destruct value as [| |?|?|[|? ?]]; try discriminate; reflexivity.
Qed.

(** X15.  Under a header that starts with [公众号] and [帐号名] and names
    neither of them again, a kept row whose two name cells are texts (or
    missing) becomes an account with a key that is not empty: the
    [帐号名] cell if it holds text, else the [公众号] cell. *)
Theorem kept_row_has_a_key
    (numberToString : number -> jsstring) (rest row : list any) :
  Forall (fun h => property_key numberToString h <> 公众号
                   /\ property_key numberToString h <> 帐号名) rest ->
  textual (at_index row 0) = true ->
  textual (at_index row 1) = true ->
  kept row = true ->
  exists s,
    getAccountKey (toAccount numberToString (Str 公众号 :: Str 帐号名 :: rest) row)
    = Str s
    /\ s <> []
    /\ s = match text (at_index row 1) with
           | _ :: _ => text (at_index row 1)
           | [] => text (at_index row 0)
           end.
Proof.
  intros Hrest T0 T1 Hk.
  assert (forall j h, (1 < j)%nat ->
            (Str 公众号 :: Str 帐号名 :: rest) !! j = Some h ->
            property_key numberToString h <> 公众号
            /\ property_key numberToString h <> 帐号名) as Hlater.
  { intros [|[|j]] h Hj Hh; try lia. cbn in Hh.
    rewrite Forall_forall in Hrest. apply Hrest. eapply list_elem_of_lookup_2, Hh. }
  assert (toAccount numberToString (Str 公众号 :: Str 帐号名 :: rest) row !! 公众号
          = Some (Str (text (at_index row 0)))) as E0.
  { rewrite <- (field_name_text numberToString (Str 公众号)) by (exact T0 || reflexivity).
    apply (toAccount_last_occurrence numberToString _ row 0 (Str 公众号));
      [reflexivity| |discriminate].
    intros [|[|j]] h Hj Hh; try lia.
    - cbn in Hh. injection Hh as <-. discriminate.
    - apply (Hlater (S (S j)) h); [lia|exact Hh]. }
  assert (toAccount numberToString (Str 公众号 :: Str 帐号名 :: rest) row !! 帐号名
          = Some (Str (text (at_index row 1)))) as E1.
  { rewrite <- (field_name_text numberToString (Str 帐号名)) by (exact T1 || reflexivity).
    apply (toAccount_last_occurrence numberToString _ row 1 (Str 帐号名));
      [reflexivity| |discriminate].
    intros [|[|j]] h Hj Hh; try lia.
    apply (Hlater (S (S j)) h); [lia|exact Hh]. }
  unfold getAccountKey, prop. rewrite E0, E1.
  rewrite kept_first_two_cells in Hk.
  destruct (at_index row 0) as [| |?|?|[|? ?]]; try discriminate;
    destruct (at_index row 1) as [| |?|?|[|? ?]]; try discriminate;
    cbn in *; eexists; (split; [reflexivity|]); split; (discriminate || reflexivity).
Qed.

Lemma kept_row_has_a_key_witness :
  exists s,
    getAccountKey
      (toAccount not_called standard [Str (js "A"); Str []; Str (js "1.2w")])
    = Str s
    /\ s <> []
    /\ s = js "A".
Proof.
  exact (kept_row_has_a_key not_called [Str (js "阅读总数")]
           [Str (js "A"); Str []; Str (js "1.2w")]
           ltac:(repeat constructor; discriminate) eq_refl eq_refl eq_refl).
Defined.

(** X16.  The library and the per-month route build the same accounts
    from the same sheet and refuse a sheet of fewer than two rows with
    the same message; they differ on one sheet only, the one whose header
    row is empty, which the route refuses and the library reads as
    accounts without fields. *)
Theorem route_reads_like_the_library
    (numberToString : number -> jsstring) (jsonData : list (list any)) :
  match jsonData with
  | [] :: _ :: _ =>
      DataRoute.GET numberToString jsonData
      = DataRoute.Error 400 (js "Excel 文件缺少表头")
      /\ exists accounts,
           readExcelFile numberToString jsonData = Return accounts
           /\ Forall (fun account => account = ∅) accounts
  | _ :: _ :: _ =>
      exists accounts,
        readExcelFile numberToString jsonData = Return accounts
        /\ DataRoute.GET numberToString jsonData = DataRoute.Data accounts
  | _ =>
      readExcelFile numberToString jsonData
      = Throw (Str (js "Excel 文件格式不正确，至少需要表头和数据行"))
      /\ DataRoute.GET numberToString jsonData
         = DataRoute.Error 400 (js "Excel 文件格式不正确，至少需要表头和数据行")
  end.
Proof.
  destruct jsonData as [|[|h headers] [|row rows]]; try (split; reflexivity).
  - split; [reflexivity|]. eexists. split; [reflexivity|].
    unfold accounts. apply List.Forall_forall. intros a Ha.
    apply in_map_iff in Ha as (r & <- & _). reflexivity.
  - eexists. split; reflexivity.
Qed.

End Accounts.

(** ** The display object of a row *)

Section Row.
Import JS ExcelReader.

Lemma safeGetValue_shown getter fieldName r :
  safeGetValue getter fieldName = Return r -> shown r.
Proof.
  unfold safeGetValue, try_catch, mbind, completion_bind, shown.
  destruct (getter tt) as [[| |b|x|s]|e]; try (intros [= <-] n; discriminate).
  destruct (isNaN x || negb (isFinite x)) eqn:E; intros [= <-] n; [discriminate|].
  intros [= <-]. apply orb_false_iff in E as [_ E].
  apply negb_false_iff in E. exact E.
Qed.

Lemma read_shown account k label r : read account k label = Return r -> shown r.
Proof. apply safeGetValue_shown. Qed.

(** What [getDisplayMetrics] returns: every wrapped entry can be shown,
    the name is the guarded read of the two name fields, and the increment
    of the forward total is the local difference. *)
Lemma getDisplayMetrics_returns account previousAccount :
  exists d,
    getDisplayMetrics account previousAccount = Return d
    /\ Forall shown (wrapped d)
    /\ safeGetValue
         (fun _ => Return (or (or (prop account 公众号) (prop account 帐号名))
                              (Str (js "-"))))
         (js "账号名称") = Return (账号名称 d)
    /\ increment (总转发数 d)
       = match previousAccount with
         | Some previous =>
             Some (minus (or (prop account 转发总量) (Num zero))
                         (or (prop previous 转发总量) (Num zero)))
         | None => None
         end.
Proof.
  unfold getDisplayMetrics. rewrite forwardIncrement_eq. cbn [mbind completion_bind].
  destruct (safeGetValue_returns
              (fun _ => Return (or (or (prop account 公众号) (prop account 帐号名))
                                   (Str (js "-"))))
              (js "账号名称")) as [name Hname].
  pose proof (safeGetValue_shown _ _ _ Hname) as Sname.
  rewrite Hname. cbn [mbind completion_bind].
  repeat match goal with
         | |- context [read ?a ?k ?l] =>
             let r := fresh "r" in
             let Hr := fresh "Hr" in
             destruct (read_returns a k l) as [r Hr];
             pose proof (read_shown _ _ _ _ Hr);
             rewrite Hr; clear Hr; cbn [mbind completion_bind]
         end.
  eexists. split; [reflexivity|]. split; [|split; reflexivity].
  unfold wrapped. cbn [账号名称 发文数 总阅读数 头条阅读 十万加 平均阅读 总在看数
                       总点赞数 总转发数 WCI排名 value increment].
  repeat (constructor; [assumption|]). constructor.
Qed.

(** X17.  [getDisplayMetrics] always returns, and no entry it reads
    through [safeGetValue] is NaN or an infinity: such an entry is the
    error object or a value that, if it is a number, is finite. *)
Theorem display_numbers_are_finite
    (account : AccountData) (previousAccount : option AccountData) :
  exists d,
    getDisplayMetrics account previousAccount = Return d
    /\ Forall shown (wrapped d).
Proof.
  destruct (getDisplayMetrics_returns account previousAccount) as (d & Hd & Hs & _).
  exists d. split; assumption.
Qed.

(** X18.  The name shown for an account whose two name fields are texts
    (or missing) is the [公众号] field if it holds text, else the [帐号名]
    field if it holds text, else a dash: the opposite preference to the
    one of [getAccountKey]. *)
Theorem display_name_prefers_primary
    (account : AccountData) (previousAccount : option AccountData) :
  textual (prop account 公众号) = true ->
  textual (prop account 帐号名) = true ->
  exists d,
    getDisplayMetrics account previousAccount = Return d
    /\ 账号名称 d
       = Value (Str match text (prop account 公众号), text (prop account 帐号名) with
                    | (_ :: _) as primary, _ => primary
                    | [], (_ :: _) as alternate => alternate
                    | [], [] => js "-"
                    end).
Proof.
  intros Tp Ta.
  destruct (getDisplayMetrics_returns account previousAccount) as (d & Hd & _ & Hn & _).
  exists d. split; [exact Hd|].
  assert (forall r r', Return (A := safe) r = Return r' -> r' = r) as inj
    by (intros r r' [= ->]; reflexivity).
  apply inj. rewrite <- Hn.
  destruct (prop account 公众号) as [| |?|?|[|? ?]]; try discriminate;
    destruct (prop account 帐号名) as [| |?|?|[|? ?]]; try discriminate; reflexivity.
Qed.

Lemma display_name_prefers_primary_witness :
  exists d,
    getDisplayMetrics (names "qbitai" "量子位") None = Return d
    /\ 账号名称 d = Value (Str (js "量子位")).
Proof.
  exact (display_name_prefers_primary (names "qbitai" "量子位") None eq_refl eq_refl).
Defined.

(** X19.  A row of the board compares an account with the first record
    of the previous month that has the same key: without such a record
    the increment of the forward total is absent, and otherwise it is the
    difference to that first record, whatever records follow it. *)
Theorem row_compares_with_first_match
    (previousData : list AccountData) (account : AccountData) :
  exists d,
    Page.metricsOf previousData account = Return d
    /\ ((forall prev, In prev previousData -> same_key prev account = false) ->
        increment (总转发数 d) = None)
    /\ (forall before prev after,
          previousData = before ++ prev :: after ->
          (forall p, In p before -> same_key p account = false) ->
          same_key prev account = true ->
          increment (总转发数 d)
          = Some (minus (or (prop account 转发总量) (Num zero))
                        (or (prop prev 转发总量) (Num zero)))).
Proof.
  unfold Page.metricsOf.
  destruct (getDisplayMetrics_returns account
              (Page.findPreviousAccountData previousData account))
    as (d & Hd & _ & _ & Hi).
  exists d. split; [exact Hd|]. rewrite Hi. unfold Page.findPreviousAccountData.
  split.
  - intros Hnone. rewrite find_none_all; [reflexivity|exact Hnone].
  - intros before prev after -> Hb Hp.
    rewrite find_app, (find_none_all _ before) by exact Hb.
    cbn [find]. unfold same_key in Hp. rewrite Hp. reflexivity.
Qed.

End Row.

(** ** Abbreviated numbers: formatNumber and parseNumber *)

Section Abbreviated.
Import JS ExcelReader.

Lemma decimal_digits_spec fuel n acc :
  (0 < fuel)%nat -> (n < 10 ^ N.of_nat fuel)%N ->
  exists ds,
    decimal_digits fuel n acc = ds ++ acc
    /\ ds <> [] /\ forallb is_digit ds = true /\ digits_value ds = Z.of_N n.
Proof.
  revert n acc. induction fuel as [|fuel IH]; intros n acc Hf Hn; [lia|].
  cbn [decimal_digits].
  pose proof (N.mod_upper_bound n 10 ltac:(discriminate)) as Hm.
  pose proof (N.div_mod n 10 ltac:(discriminate)) as Hdm.
  rewrite Nat2N.inj_succ, N.pow_succ_r' in Hn.
  remember (n mod 10)%N as r eqn:Er. remember (n / 10)%N as q eqn:Eq.
  clear Er Eq.
  assert (is_digit (ch "0" + r) = true) as Hd.
  { unfold is_digit. change (ch "0") with 48%N. change (ch "9") with 57%N.
    apply andb_true_iff; split; apply N.leb_le; lia. }
  assert (Z.of_N (ch "0" + r - ch "0") = Z.of_N r) as Hv.
  { change (ch "0") with 48%N. f_equal. lia. }
  destruct (N.eqb_spec q 0) as [E|E].
  - exists [(ch "0" + r)%N]. split; [reflexivity|]. split; [discriminate|].
    split; [cbn [forallb]; rewrite Hd; reflexivity|].
    unfold digits_value. cbn [fold_left]. rewrite Hv. lia.
  - assert (q < 10 ^ N.of_nat fuel)%N as Hq by lia.
    assert (0 < fuel)%nat as Hf'.
    { destruct fuel; [|lia]. cbn in Hq. lia. }
    destruct (IH q ((ch "0" + r)%N :: acc) Hf' Hq)
      as (ds & -> & Hne & Hds & Hval).
    exists (ds ++ [(ch "0" + r)%N]). rewrite <- app_assoc.
    split; [reflexivity|]. split; [destruct ds; discriminate|].
    split; [rewrite forallb_app, Hds; cbn [forallb]; rewrite Hd; reflexivity|].
    rewrite digits_value_app. cbn [length].
    unfold digits_value at 2. cbn [fold_left]. rewrite Hval, Hv. lia.
Qed.

Lemma decimal_spec n :
  decimal n <> []
  /\ forallb is_digit (decimal n) = true
  /\ digits_value (decimal n) = Z.of_N n.
Proof.
  unfold decimal.
  destruct (decimal_digits_spec (S (N.to_nat (N.log2 n))) n []) as (ds & -> & H).
  - lia.
  - rewrite Nat2N.inj_succ, N2Nat.id.
    destruct n as [|p]; [cbn; lia|].
    pose proof (N.log2_spec (Npos p) ltac:(lia)) as [_ Hl].
    eapply N.lt_le_trans; [exact Hl|].
    apply N.pow_le_mono_l. lia.
  - rewrite app_nil_r. exact H.
Qed.

Lemma fixed_point_one n :
  0 <= n ->
  exists a d,
    fixed_point 1 n = a ++ [ch "."; d]
    /\ a <> [] /\ forallb is_digit a = true /\ is_digit d = true
    /\ digits_value (a ++ [d]) = n.
Proof.
  intros Hn. destruct (decimal_spec (Z.to_N n)) as (Hne & Hd & Hv).
  rewrite Z2N.id in Hv by exact Hn. unfold fixed_point.
  destruct (decimal (Z.to_N n)) as [|c ds] using rev_ind; [contradiction|].
  clear IHds. rewrite forallb_app in Hd. apply andb_true_iff in Hd as [Hds Hc].
  cbn [forallb] in Hc. apply andb_true_iff in Hc as [Hc _].
  destruct ds as [|c0 ds].
  - exists [ch "0"], c. cbn. split; [reflexivity|]. split; [discriminate|].
    split; [reflexivity|]. split; [exact Hc|].
    rewrite <- Hv. unfold digits_value. cbn. lia.
  - exists (c0 :: ds), c.
    assert ((length ((c0 :: ds) ++ [c]) <=? 1)%nat = false) as ->.
    { apply Nat.leb_gt. rewrite length_app. cbn. lia. }
    assert (length ((c0 :: ds) ++ [c]) - 1 = length (c0 :: ds))%nat as ->
      by (rewrite length_app; cbn; lia).
    rewrite take_app_length, drop_app_length.
    split; [reflexivity|]. split; [discriminate|]. auto.
Qed.

Lemma nearest_scaled_nonneg f m e : 0 <= nearest_scaled f m e.
Proof.
  unfold nearest_scaled. destruct e as [|p|p].
  - lia.
  - pose proof (Z.pow_nonneg 2 (Zpos p) ltac:(lia)).
    pose proof (Z.pow_nonneg 10 (Z.of_nat f) ltac:(lia)). nia.
  - apply Z.div_pos.
    + pose proof (Z.pow_nonneg 2 (Zpos p) ltac:(lia)).
      pose proof (Z.pow_nonneg 10 (Z.of_nat f) ltac:(lia)). nia.
    + apply Z.pow_pos_nonneg; lia.
Qed.

Lemma of_decimal_not_nan neg m e : isNaN (of_decimal neg m e) = false.
Proof.
  unfold of_decimal. destruct m as [|p|p]; try reflexivity.
  match goal with
  | |- context [SFdiv_core_binary prec emax ?n 0 ?d 0] =>
      assert (0 <= n) as Hnum; [|assert (0 < d) as Hden;
        [|generalize dependent d; generalize dependent n]]
  end.
  - destruct e as [|k|k]; try lia;
      pose proof (Z.pow_nonneg 10 (Zpos k) ltac:(lia)); nia.
  - destruct e as [|k|k]; try lia; apply Z.pow_pos_nonneg; lia.
  - intros num Hnum den Hden. unfold SFdiv_core_binary.
    match goal with
    | |- context [Z.div_eucl ?a den] =>
        assert (0 <= a) as Ha; [|generalize dependent a]
    end.
    + match goal with |- 0 <= match ?s with _ => _ end => destruct s end;
        [exact Hnum| |lia].
      rewrite Z.shiftl_mul_pow2 by lia.
      match goal with |- 0 <= _ * 2 ^ ?k =>
        pose proof (Z.pow_nonneg 2 k ltac:(lia)) end. nia.
    + intros a Ha. pose proof (Z.div_pos a den Ha Hden) as Hq.
      unfold Z.div in Hq. destruct (Z.div_eucl a den) as [q r].
      apply binary_round_aux_not_nan, Hq.
Qed.

(** *** What parseNumber makes of digits, a point, a digit and [w] *)

Lemma digits_none_is c s :
  is_digit c = false -> forallb is_digit s = true -> none_is c s = true.
Proof.
  intros Hc. unfold none_is. induction s as [|x s IH]; [reflexivity|].
  cbn [forallb]. intros H. apply andb_true_iff in H as [Hx Hs].
  rewrite (IH Hs), andb_true_r.
  destruct (N.eqb_spec x c) as [->|]; [congruence|reflexivity].
Qed.

Lemma remove_first_skip c l r :
  none_is c l = true -> remove_first c (l ++ r) = l ++ remove_first c r.
Proof.
  unfold none_is. induction l as [|x l IH]; [reflexivity|].
  cbn [forallb app remove_first]. intros H. apply andb_true_iff in H as [Hx Hl].
  apply negb_true_iff in Hx. rewrite Hx, (IH Hl). reflexivity.
Qed.

Lemma remove_all_skip c s :
  none_is c s = true -> remove_all (N.eqb c) s = s.
Proof.
  unfold none_is, remove_all. induction s as [|x s IH]; [reflexivity|].
  cbn [forallb List.filter]. intros H. apply andb_true_iff in H as [Hx Hs].
  rewrite N.eqb_sym, Hx, (IH Hs). reflexivity.
Qed.

Lemma span_digits_app a r :
  forallb is_digit a = true ->
  match r with c :: _ => is_digit c = false | [] => True end ->
  span_digits (a ++ r) = (a, r).
Proof.
  intros Ha Hr. induction a as [|x a IH].
  - destruct r as [|c r]; [reflexivity|]. cbn [app span_digits]. rewrite Hr. reflexivity.
  - cbn [forallb] in Ha. apply andb_true_iff in Ha as [Hx Ha].
    cbn [app span_digits]. rewrite Hx, (IH Ha). reflexivity.
Qed.

Lemma parseFloat_fixed a d :
  a <> [] -> forallb is_digit a = true -> is_digit d = true ->
  parseFloat (a ++ [ch "."; d]) = of_decimal false (digits_value (a ++ [d])) (-1).
Proof.
  intros Hne Ha Hd. destruct a as [|c a]; [contradiction|].
  pose proof Ha as Hc. cbn [forallb] in Hc. apply andb_true_iff in Hc as [Hc _].
  unfold parseFloat. cbn [app trimStart]. rewrite (digit_not_whitespace c Hc).
  unfold signed_decimal.
  assert ((c =? ch "+")%N = false) as ->
    by (destruct (N.eqb_spec c (ch "+")) as [->|]; [discriminate Hc|reflexivity]).
  assert ((c =? ch "-")%N = false) as ->
    by (destruct (N.eqb_spec c (ch "-")) as [->|]; [discriminate Hc|reflexivity]).
  unfold unsigned_decimal.
  assert (starts_with (js "Infinity") (c :: a ++ [ch "."; d]) = None) as ->.
  { assert (js "Infinity" = 73%N :: js "nfinity") as -> by reflexivity.
    cbn [starts_with].
    destruct (N.eqb_spec 73 c) as [<-|]; [discriminate Hc|reflexivity]. }
  change (c :: a ++ [ch "."; d]) with ((c :: a) ++ [ch "."; d]).
  rewrite (span_digits_app (c :: a) [ch "."; d] Ha eq_refl).
  rewrite N.eqb_refl.
  change [d] with ([d] ++ []).
  rewrite (span_digits_app [d] []) by (cbn [forallb]; rewrite ?Hd; auto).
  cbn [app exponent_part length number_of]. reflexivity.
Qed.

Lemma parseNumber_fixed_myriad a d :
  a <> [] -> forallb is_digit a = true -> is_digit d = true ->
  parseNumber (Str (a ++ [ch "."; d; ch "w"]))
  = mul (of_decimal false (digits_value (a ++ [d])) (-1)) (of_Z 10000).
Proof.
  intros Hne Ha Hd.
  assert (forall c, is_digit c = false -> (ch "." =? c)%N = false ->
            none_is c (a ++ [ch "."; d]) = true) as Hnone.
  { intros c Hc Hp. unfold none_is. rewrite forallb_app.
    fold (none_is c a). rewrite (digits_none_is c a Hc Ha).
    cbn [forallb]. rewrite Hp.
    destruct (N.eqb_spec d c) as [->|]; [congruence|reflexivity]. }
  assert (trim (a ++ [ch "."; d; ch "w"]) = a ++ [ch "."; d; ch "w"]) as Htrim.
  { unfold trim, trimEnd.
    assert (trimStart (a ++ [ch "."; d; ch "w"]) = a ++ [ch "."; d; ch "w"]) as ->.
    { destruct a as [|c a]; [contradiction|]. cbn [forallb] in Ha.
      apply andb_true_iff in Ha as [Hc _].
      cbn [app trimStart]. rewrite (digit_not_whitespace c Hc). reflexivity. }
    rewrite rev_app_distr. cbn [rev app trimStart].
    change (is_whitespace (ch "w")) with false. cbn iota.
    change (ch "w" :: d :: ch "." :: rev a) with (rev [ch "."; d; ch "w"] ++ rev a).
    rewrite <- rev_app_distr, rev_involutive. reflexivity. }
  unfold parseNumber. rewrite Htrim.
  change (a ++ [ch "."; d; ch "w"]) with (a ++ [ch "."; d] ++ [ch "w"]).
  rewrite app_assoc.
  assert (none_is (ch "+") ((a ++ [ch "."; d]) ++ [ch "w"]) = true) as Hplus.
  { unfold none_is. rewrite forallb_app.
    fold (none_is (ch "+") (a ++ [ch "."; d])).
    rewrite (Hnone (ch "+")) by reflexivity. reflexivity. }
  rewrite (remove_all_skip _ _ Hplus).
  assert (includes ((a ++ [ch "."; d]) ++ [ch "w"]) (ch "w") = true) as ->.
  { unfold includes. rewrite existsb_app. cbn [existsb].
    rewrite N.eqb_refl. apply orb_true_iff. right. reflexivity. }
  rewrite (remove_first_skip (ch "w")) by (apply Hnone; reflexivity).
  cbn [remove_first]. rewrite N.eqb_refl, app_nil_r.
  assert (remove_first (ch "+") (a ++ [ch "."; d]) = a ++ [ch "."; d]) as ->.
  { rewrite <- (app_nil_r (a ++ [ch "."; d])) at 1.
    rewrite (remove_first_skip (ch "+")) by (apply Hnone; reflexivity).
    cbn [remove_first]. apply app_nil_r. }
  rewrite (parseFloat_fixed a d Hne Ha Hd), of_decimal_not_nan. reflexivity.
Qed.

(** X21.  An abbreviated number reads back: for a number of 10000 and
    more whose ten-thousandth is finite and below 10^21, [formatNumber]
    gives digits, a point, one digit and [w], and [parseNumber] makes of
    that text the number of tenths that [toFixed] rounded to, times
    10000. *)
Theorem formatNumber_reads_back
    (toLocaleString numberToString : number -> jsstring)
    (num : number) (m : positive) (e : Z) :
  greater_equal num (of_Z 10000) = true ->
  div num (of_Z 10000) = S754_finite false m e ->
  greater_equal (S754_finite false m e) (of_Z (10 ^ 21)) = false ->
  exists a d,
    formatNumber toLocaleString numberToString num = a ++ [ch "."; d; ch "w"]
    /\ a <> []
    /\ forallb is_digit (a ++ [d]) = true
    /\ digits_value (a ++ [d]) = nearest_scaled 1 m e
    /\ parseNumber (Str (formatNumber toLocaleString numberToString num))
       = mul (of_decimal false (nearest_scaled 1 m e) (-1)) (of_Z 10000).
Proof.
  intros Hge Hdiv Hbig. unfold formatNumber. rewrite Hge, Hdiv.
  unfold toFixed. rewrite Hbig. cbn [app].
  destruct (fixed_point_one (nearest_scaled 1 m e) (nearest_scaled_nonneg 1 m e))
    as (a & d & -> & Hne & Ha & Hd & Hv).
  exists a, d.
  assert ((a ++ [ch "."; d]) ++ js "w" = a ++ [ch "."; d; ch "w"]) as ->
    by (rewrite <- app_assoc; reflexivity).
  split; [reflexivity|]. split; [exact Hne|].
  split; [rewrite forallb_app, Ha; cbn [forallb]; rewrite Hd; reflexivity|].
  split; [exact Hv|].
  rewrite (parseNumber_fixed_myriad a d Hne Ha Hd), Hv. reflexivity.
Qed.

Lemma formatNumber_reads_back_witness :
  exists a d,
    formatNumber not_called not_called (of_Z 12345) = a ++ [ch "."; d; ch "w"]
    /\ a <> []
    /\ forallb is_digit (a ++ [d]) = true
    /\ digits_value (a ++ [d]) = nearest_scaled 1 5559693739988877 (-52)
    /\ parseNumber (Str (formatNumber not_called not_called (of_Z 12345)))
       = mul (of_decimal false (nearest_scaled 1 5559693739988877 (-52)) (-1))
             (of_Z 10000).
Proof.
  exact (formatNumber_reads_back not_called not_called (of_Z 12345)
           5559693739988877 (-52)
           ltac:(vm_compute; reflexivity) ltac:(vm_compute; reflexivity)
           ltac:(vm_compute; reflexivity)).
Defined.

End Abbreviated.
